(** * MIDI over WebRTC: the Electron transport bridge and the Meister manager

    A shallow embedding of two classes of the repository:

    - [ElectronMIDIRTC] (meister/external/midi-rtc/platforms/electron.js):
      the bridge configuration built by the constructor, [sendMIDItoRtpMidi]
      and the overriding [sendMIDI] that forwards between the USB, WebRTC and
      RTP-MIDI transports;
    - [WebRTCMIDIManager] (webrtc-midi-manager.js): the registry of virtual
      inputs and outputs, the statistics, and the connection life cycle.

    JavaScript values that the code only tests for truthiness are kept as
    [Js.value]; a JS [Map] is an insertion-ordered association list; a JS
    object used as a record of named flags is a [gmap string Js.value];
    calls into collaborators (the base class, the RTP-MIDI session, the
    host's callbacks) are recorded as effects in the order they are issued.

    The base class [MIDIRTCConnection] (core/connection.js) is not part of
    the sources at hand: calls into it are recorded, and what the manager
    needs to know of it is modelled from the specification, where marked.
    Console logging is left out.  A callback of the host is recorded as a
    call; it is taken to return without calling back into the object that
    invoked it.  [async] methods run in one piece.  Counters are JS
    numbers and are kept as integers, which is exact below 2^53. *)

From Stdlib Require Import ZArith List String Floats.
From stdpp Require Import gmap strings list.
From Stdlib Require DecimalString.

Open Scope string_scope.
Open Scope list_scope.

(** ** JavaScript values and operators *)

Module Js.

Inductive value :=
| Undefined
| Null
| Bool (b : bool)
| Num (f : float)
| Str (s : string)
| Obj (id : nat).

(** ToBoolean: what [if (v)], [v && w] and [v || w] test. *)
Definition truthy (v : value) : bool :=
  match v with
  | Undefined | Null => false
  | Bool b => b
  | Num f => negb (PrimFloat.is_zero f || PrimFloat.is_nan f)
  | Str s => negb (String.eqb s "")
  | Obj _ => true
  end.

(** [v !== false] *)
Definition strict_ne_false (v : value) : bool :=
  match v with
  | Bool false => false
  | _ => true
  end.

(** [a && b] and [a || b] return one of their operands. *)
Definition and_ (a b : value) : value := if truthy a then b else a.
Definition or_ (a b : value) : value := if truthy a then a else b.

(** Reading a property of an object: a missing key reads [undefined]. *)
Definition prop (o : gmap string value) (k : string) : value :=
  default Undefined (o !! k).

(** What a function leaves behind: a returned value or a thrown error. *)
Inductive completion (A : Type) :=
| Return (a : A)
| Throw (err : string).
Arguments Return {A} a.
Arguments Throw {A} err.

End Js.

(** A [Uint8Array]: its bytes, each in 0..255. *)
Definition Uint8Array := list Z.

(** ** JS [Map] keyed by strings

    Iteration follows insertion order, and [set] on a key that is already
    present replaces the value where it stands. *)

Section JsMap.
Context {V : Type}.

Definition JsMap := list (string * V).

Definition map_new : JsMap := [].

Definition map_has (k : string) (m : JsMap) : bool :=
  existsb (fun p => String.eqb k (fst p)) m.

Fixpoint map_get (k : string) (m : JsMap) : option V :=
  match m with
  | [] => None
  | (k', v) :: rest => if String.eqb k k' then Some v else map_get k rest
  end.

Fixpoint map_set (k : string) (v : V) (m : JsMap) : JsMap :=
  match m with
  | [] => [(k, v)]
  | (k', v') :: rest =>
      if String.eqb k k' then (k, v) :: rest else (k', v') :: map_set k v rest
  end.

Definition map_clear (m : JsMap) : JsMap := [].

Definition map_keys (m : JsMap) : list string := map fst m.
Definition map_values (m : JsMap) : list V := map snd m.
Definition map_size (m : JsMap) : nat := length m.
End JsMap.

Arguments JsMap V : clear implicits.

(** ** ElectronMIDIRTC *)

Module Electron.

(** The constructor's [options], as far as the bridge reads them.  A field
    the caller left out is [Js.Undefined]; [bridgeConfig] is [None] when
    absent (spreading [undefined] adds nothing). *)
Record Options := {
  bridgeWebRTCtoRTPMIDI : Js.value;
  bridgeRTPMIDItoWebRTC : Js.value;
  bridgeUSBtoWebRTC : Js.value;
  bridgeUSBtoRTPMIDI : Js.value;
  opt_bridgeConfig : option (gmap string Js.value)
}.

Definition no_options : Options :=
  {| bridgeWebRTCtoRTPMIDI := Js.Undefined;
     bridgeRTPMIDItoWebRTC := Js.Undefined;
     bridgeUSBtoWebRTC := Js.Undefined;
     bridgeUSBtoRTPMIDI := Js.Undefined;
     opt_bridgeConfig := None |}.

(** The four properties the object literal of the constructor writes. *)
Definition literal_bridgeConfig (options : Options) : gmap string Js.value :=
  {[ "webrtcToRtpMidi" := Js.Bool (Js.strict_ne_false (bridgeWebRTCtoRTPMIDI options));
     "rtpMidiToWebRTC" := Js.Bool (Js.strict_ne_false (bridgeRTPMIDItoWebRTC options));
     "usbToWebRTC" := Js.Bool (Js.strict_ne_false (bridgeUSBtoWebRTC options));
     "usbToRtpMidi" := Js.Bool (Js.strict_ne_false (bridgeUSBtoRTPMIDI options)) ]}.

(** [{ ...four literal properties, ...options.bridgeConfig }]: the spread
    comes last, so its properties win over the literal ones. *)
Definition constructor_bridgeConfig (options : Options) : gmap string Js.value :=
  default ∅ (opt_bridgeConfig options) ∪ literal_bridgeConfig options.

(** The RTP-MIDI session of the rtpmidi library: [sendMessage] either
    returns or throws. *)
Record RtpSession := {
  sendMessage : list Z -> Js.completion unit
}.

(** The fields of an instance that the send path reads.  [isMain] is kept
    by its truthiness. *)
Record t := {
  isMain : bool;
  rtpMidiSession : option RtpSession;
  rtpMidiEnabled : bool;
  bridgeConfig : gmap string Js.value
}.

(** The constructor: no session yet, RTP-MIDI disabled. *)
Definition constructor (is_main : bool) (options : Options) : t :=
  {| isMain := is_main;
     rtpMidiSession := None;
     rtpMidiEnabled := false;
     bridgeConfig := constructor_bridgeConfig options |}.

Inductive transport := USB | WebRTC | RtpMidi.

(** The calls [sendMIDI] issues to the transports.  [super.sendMIDI] is
    the method of the base class that writes to the WebRTC data channel;
    it is recorded as a call that returns. *)
Inductive effect :=
| SuperSendMIDI (data : Uint8Array) (timestamp : float) (channel : string)
    (* super.sendMIDI(data, timestamp, channel): the WebRTC data channel *)
| RtpSendMessage (message : list Z).
    (* this.rtpMidiSession.sendMessage(message) *)

Definition destination (e : effect) : transport :=
  match e with
  | SuperSendMIDI _ _ _ => WebRTC
  | RtpSendMessage _ => RtpMidi
  end.

(** The target tag an effect carries on the wire, if it carries one. *)
Definition target_tag (e : effect) : option string :=
  match e with
  | SuperSendMIDI _ _ channel => Some channel
  | RtpSendMessage _ => None
  end.

(** [try { body } catch (error) { on_error }]: the calls the body issued
    before it threw have happened. *)
Definition try_catch {A : Type} (body : Js.completion A * list effect)
    (on_error : string -> Js.completion A * list effect)
    : Js.completion A * list effect :=
  match body with
  | (Js.Return a, fx) => (Js.Return a, fx)
  | (Js.Throw error, fx) =>
      let '(r, fx') := on_error error in (r, fx ++ fx')
  end.

Definition sendMIDItoRtpMidi (self : t) (data : Uint8Array)
    : Js.completion bool * list effect :=
  match rtpMidiEnabled self, rtpMidiSession self with
  | true, Some session =>
      try_catch
        (let message := data (* Array.from(data) *) in
         match sendMessage session message with
         | Js.Return _ => (Js.Return true, [RtpSendMessage message])
         | Js.Throw error => (Js.Throw error, [RtpSendMessage message])
         end)
        (fun error => (Js.Return false, []) (* logged *))
  | _, _ => (Js.Return false, [])
  end.

Definition source_tags : list string := ["usb"; "rtpmidi"; "webrtc"].

(** Lines 354-356: how the third argument is read.  [None] is an omitted
    argument, which the default parameter turns into ['default']. *)
Definition isSource (channelOrSource : string) : bool :=
  bool_decide (channelOrSource ∈ source_tags).
Definition channel_of (channelOrSource : string) : string :=
  if isSource channelOrSource then "default" else channelOrSource.
Definition source_of (channelOrSource : string) : string :=
  if isSource channelOrSource then channelOrSource else "usb".

Definition sendMIDI (self : t) (data : Uint8Array) (timestamp : float)
    (arg : option string) : list effect :=
  let channelOrSource := default "default" arg in
  let channel := channel_of channelOrSource in
  let source := source_of channelOrSource in
  let cfg := Js.prop (bridgeConfig self) in
  let to_webrtc :=
    if negb (String.eqb source "webrtc") then
      let shouldSendToWebRTC :=
        Js.or_ (Js.and_ (Js.Bool (String.eqb source "usb")) (cfg "usbToWebRTC"))
               (Js.and_ (Js.Bool (String.eqb source "rtpmidi")) (cfg "rtpMidiToWebRTC")) in
      if Js.truthy shouldSendToWebRTC then [SuperSendMIDI data timestamp channel] else []
    else [] in
  let to_rtpmidi :=
    if isMain self && rtpMidiEnabled self && negb (String.eqb source "rtpmidi") then
      let shouldSendToRtpMidi :=
        Js.or_ (Js.and_ (Js.Bool (String.eqb source "usb")) (cfg "usbToRtpMidi"))
               (Js.and_ (Js.Bool (String.eqb source "webrtc")) (cfg "webrtcToRtpMidi")) in
      if Js.truthy shouldSendToRtpMidi then snd (sendMIDItoRtpMidi self data) else []
    else [] in
  to_webrtc ++ to_rtpmidi.

(** The transport a call's message entered from, by its source string. *)
Definition origin (arg : option string) : transport :=
  let source := source_of (default "default" arg) in
  if String.eqb source "webrtc" then WebRTC
  else if String.eqb source "rtpmidi" then RtpMidi
  else USB.

(** [setupMIDIBridging]: the handler installed for messages that arrive
    over WebRTC. *)
Definition bridge_onMIDIMessage (self : t) (data : Uint8Array) (timestamp : float)
    : list effect :=
  if isMain self && rtpMidiEnabled self
     && Js.truthy (Js.prop (bridgeConfig self) "webrtcToRtpMidi")
  then sendMIDI self data timestamp (Some "webrtc")
  else [].

(** [e] with its target tag, if it has one, replaced by [channel]. *)
Definition retarget (channel : string) (e : effect) : effect :=
  match e with
  | SuperSendMIDI data timestamp _ => SuperSendMIDI data timestamp channel
  | RtpSendMessage message => RtpSendMessage message
  end.

(** The names of the edges the constructor writes. *)
Definition edge_names : gset string :=
  {[ "webrtcToRtpMidi"; "rtpMidiToWebRTC"; "usbToWebRTC"; "usbToRtpMidi" ]}.

(** A bridge in the main process with a working RTP-MIDI session, built
    with [bridgeUSBtoRTPMIDI: false]; and a note-on message. *)
Definition usb_only_webrtc : t :=
  {| isMain := true;
     rtpMidiSession := Some {| sendMessage := fun _ => Js.Return tt |};
     rtpMidiEnabled := true;
     bridgeConfig :=
       constructor_bridgeConfig
         {| bridgeWebRTCtoRTPMIDI := Js.Undefined;
            bridgeRTPMIDItoWebRTC := Js.Undefined;
            bridgeUSBtoWebRTC := Js.Undefined;
            bridgeUSBtoRTPMIDI := Js.Bool false;
            opt_bridgeConfig := None |} |}.

Definition note_on : Uint8Array := [144; 60; 127]%Z.

(** The same bridge with a session whose [sendMessage] throws. *)
Definition rtp_failing : t :=
  {| isMain := true;
     rtpMidiSession := Some {| sendMessage := fun _ => Js.Throw "socket closed" |};
     rtpMidiEnabled := true;
     bridgeConfig := constructor_bridgeConfig no_options |}.

(** *** The rest of the bridge: RTP-MIDI set-up, device channels, the
    handlers of the hardware inputs, and [close()] *)

(** The directed edge of the bridge configuration that [sendMIDI] consults
    for a message from [o] on its way to [d] (lines 361-362 and 372-373);
    the other pairs have none. *)
Definition edge (o d : transport) : option string :=
  match o, d with
  | USB, WebRTC => Some "usbToWebRTC"
  | RtpMidi, WebRTC => Some "rtpMidiToWebRTC"
  | USB, RtpMidi => Some "usbToRtpMidi"
  | WebRTC, RtpMidi => Some "webrtcToRtpMidi"
  | _, _ => None
  end.

Definition is_webrtc (e : effect) : bool :=
  match e with SuperSendMIDI _ _ _ => true | RtpSendMessage _ => false end.

(** [new Uint8Array(message)] for an array of numbers. *)
Definition bytes_of_numbers (message : list Z) : Uint8Array :=
  map (fun x => x mod 256)%Z message.

(** The options object that [connectRtpMidi] hands to [createSession]:
    three defaulted properties, then the spread of [options] over them. *)
Definition sessionOptions (options : gmap string Js.value) : gmap string Js.value :=
  options ∪
  {[ "localName" := Js.or_ (Js.prop options "localName") (Js.Str "MIDI-RTC");
     "bonjourName" := Js.or_ (Js.prop options "bonjourName") (Js.Str "MIDI-RTC");
     "port" := Js.or_ (Js.prop options "port") (Js.Num 5004%float) ]}.

(** [connectRtpMidi(options)].  [library] is what [import('rtpmidi')]
    yields: [None] when the import fails, else [manager.createSession],
    which may throw; [listen] stands for the three [session.on(...)]
    calls, which may throw as well, the session being stored by then.
    Every failure is caught and answered with [false].  The second
    component is the instance afterwards. *)
Definition connectRtpMidi
    (library : option (gmap string Js.value -> Js.completion RtpSession))
    (listen : RtpSession -> Js.completion unit)
    (options : gmap string Js.value) (self : t) : bool * t :=
  if negb (isMain self) then (false, self)
  else
    match library with
    | None => (false, self)
    | Some createSession =>
        match createSession (sessionOptions options) with
        | Js.Throw _ => (false, self)
        | Js.Return session =>
            let stored :=
              {| isMain := isMain self;
                 rtpMidiSession := Some session;
                 rtpMidiEnabled := rtpMidiEnabled self;
                 bridgeConfig := bridgeConfig self |} in
            match listen session with
            | Js.Throw _ => (false, stored)
            | Js.Return _ =>
                (true,
                 {| isMain := isMain stored;
                    rtpMidiSession := rtpMidiSession stored;
                    rtpMidiEnabled := true;
                    bridgeConfig := bridgeConfig stored |})
            end
        end
    end.

(** The listener [connectRtpMidi] puts on the session's 'message' event. *)
Definition rtp_onMessage (self : t) (message : list Z) (now : float) : list effect :=
  sendMIDI self (bytes_of_numbers message) now (Some "rtpmidi").

(** [s.includes(sub)] *)
Fixpoint includes (s sub : string) : bool :=
  String.prefix sub s
  || match s with
     | EmptyString => false
     | String _ rest => includes rest sub
     end.

Section Channels.

(** [String.prototype.toLowerCase], which the model leaves open. *)
Variable toLowerCase : string -> string.

(** [getChannelForDevice(deviceName)].  [channelMapping] is
    [this.options.channelMapping]: [None] when absent, else its entries in
    the order [Object.entries] lists them. *)
Definition getChannelForDevice (channelMapping : option (list (string * string)))
    (deviceName : string) : string :=
  let name := toLowerCase deviceName in
  if includes name "keyboard" || includes name "piano" then "synth"
  else if includes name "launchpad" || includes name "apc" || includes name "fighter"
  then "control"
  else if includes name "clock" || includes name "sync" then "clock"
  else
    match channelMapping with
    | Some entries =>
        match find (fun entry => includes name (toLowerCase (fst entry))) entries with
        | Some entry => snd entry
        | None => "default"
        end
    | None => "default"
    end.

(** [setupWebMIDIInputs]: the listener of an input that is present when
    MIDI access is granted ... *)
Definition webmidi_input_onmidimessage (channelMapping : option (list (string * string)))
    (self : t) (inputName : string) (data : Uint8Array) (timeStamp : float)
    : list effect :=
  let channel := getChannelForDevice channelMapping inputName in
  sendMIDI self data timeStamp (Some channel).

End Channels.

(** ... and the listener of an input that is plugged in later. *)
Definition webmidi_hotplug_onmidimessage (self : t) (data : Uint8Array)
    (timeStamp : float) : list effect :=
  sendMIDI self data timeStamp (Some "usb").

(** [setupNodeMIDIInputs]: the listener of a port of node-midi. *)
Definition nodemidi_onMessage (self : t) (message : list Z) (now : float)
    : list effect :=
  sendMIDI self (bytes_of_numbers message) now (Some "usb").

(** [close()], as far as the fields kept here go: a session is ended and
    forgotten, and RTP-MIDI is switched off with it. *)
Definition close (self : t) : t :=
  match rtpMidiSession self with
  | Some _ =>
      {| isMain := isMain self;
         rtpMidiSession := None;
         rtpMidiEnabled := false;
         bridgeConfig := bridgeConfig self |}
  | None => self
  end.

(** Lower case for the letters A to Z, to run the channel mapping on plain
    names. *)
Fixpoint ascii_toLowerCase (s : string) : string :=
  match s with
  | EmptyString => EmptyString
  | String c rest =>
      let n := Ascii.nat_of_ascii c in
      String (if (65 <=? n)%nat && (n <=? 90)%nat
              then Ascii.ascii_of_nat (n + 32) else c)
             (ascii_toLowerCase rest)
  end.

(** Options that switch the edge from USB to WebRTC off by its flag and
    on again by [bridgeConfig]. *)
Definition flag_off_override_on : Options :=
  {| bridgeWebRTCtoRTPMIDI := Js.Undefined;
     bridgeRTPMIDItoWebRTC := Js.Undefined;
     bridgeUSBtoWebRTC := Js.Bool false;
     bridgeUSBtoRTPMIDI := Js.Undefined;
     opt_bridgeConfig := Some {[ "usbToWebRTC" := Js.Bool true ]} |}.

End Electron.


(** ** WebRTCMIDIManager *)

Module Manager.

(** A function of the host, known by its identity only. *)
Definition handler := nat.

(** The address of a virtual input object.  The manager's [Map], the
    discovery callback and [getVirtualInput] all hand out the same object,
    and the host attaches its listener to it, so the objects live in a
    store and the [Map] holds references. *)
Definition ref := nat.

Record VirtualInput := {
  in_id : string;
  in_name : string;
  in_manufacturer : string;
  in_type : string;
  in_state : string;
  in_connection : string;
  in_target : string;
  onmidimessage : option handler
}.

(** A virtual output; its [send] method is [output_send] below and its
    [clear] method does nothing. *)
Record VirtualOutput := {
  out_id : string;
  out_name : string;
  out_manufacturer : string;
  out_type : string;
  out_state : string;
  out_connection : string;
  out_target : string
}.

Record Stats := {
  messagesReceived : Z;
  bytesReceived : Z;
  latency : float
}.

(** The message the connection hands to [onMIDIMessage]. *)
Record Message := {
  msg_data : Uint8Array;
  msg_timestamp : float;
  msg_target : string;
  msg_latency : float
}.

(** Modelled from the spec: the connection object ([BrowserMIDIRTC], whose
    base class core/connection.js is not among the sources).  The manager
    reads [isConnected()], and calls [sendMIDI] and [close()]; the spec's
    Connection Core absorbs send failures, so neither call throws. *)
Record Connection := {
  conn_isConnected : bool
}.

(** Modelled from the spec: what [connection.close()] reports to the
    manager's [onConnectionStateChange] before it returns.  The spec's
    [close()] is synchronous, moves the session to [closed], and fires no
    callback afterwards. *)
Definition close_reports : list string := ["closed"].

Record t := {
  connection : option Connection;
  virtualInputs : JsMap ref;
  virtualOutputs : JsMap VirtualOutput;
  isConnected : bool;
  connectionState : string;
  onMIDIMessage : option handler;
  onConnectionStateChange : option handler;
  onTargetDiscovered : option handler;
  stats : Stats;
  store : list VirtualInput
}.

(** What a method does to the outside: calls of the host's callbacks and
    calls into the connection, in order. *)
Inductive effect :=
| CallOnTargetDiscovered (h : handler) (target : string) (virtualInput : ref)
| CallInputOnMidiMessage (h : handler) (virtualInput : ref)
    (data : Uint8Array) (timeStamp : float) (target : string)
| CallOnMIDIMessage (h : handler)
    (data : Uint8Array) (timeStamp : float) (target : string) (latency : float)
| CallOnConnectionStateChange (h : handler) (state : string)
| ConnectionNew
| ConnectionSendMIDI (data : Uint8Array) (timestamp : float) (target : string)
| ConnectionClose.

(** Field updates. *)
Definition with_connection (c : option Connection) (m : t) : t :=
  {| connection := c; virtualInputs := virtualInputs m;
     virtualOutputs := virtualOutputs m; isConnected := isConnected m;
     connectionState := connectionState m; onMIDIMessage := onMIDIMessage m;
     onConnectionStateChange := onConnectionStateChange m;
     onTargetDiscovered := onTargetDiscovered m; stats := stats m;
     store := store m |}.

Definition with_virtualInputs (vi : JsMap ref) (m : t) : t :=
  {| connection := connection m; virtualInputs := vi;
     virtualOutputs := virtualOutputs m; isConnected := isConnected m;
     connectionState := connectionState m; onMIDIMessage := onMIDIMessage m;
     onConnectionStateChange := onConnectionStateChange m;
     onTargetDiscovered := onTargetDiscovered m; stats := stats m;
     store := store m |}.

Definition with_virtualOutputs (vo : JsMap VirtualOutput) (m : t) : t :=
  {| connection := connection m; virtualInputs := virtualInputs m;
     virtualOutputs := vo; isConnected := isConnected m;
     connectionState := connectionState m; onMIDIMessage := onMIDIMessage m;
     onConnectionStateChange := onConnectionStateChange m;
     onTargetDiscovered := onTargetDiscovered m; stats := stats m;
     store := store m |}.

Definition with_state (connected : bool) (state : string) (m : t) : t :=
  {| connection := connection m; virtualInputs := virtualInputs m;
     virtualOutputs := virtualOutputs m; isConnected := connected;
     connectionState := state; onMIDIMessage := onMIDIMessage m;
     onConnectionStateChange := onConnectionStateChange m;
     onTargetDiscovered := onTargetDiscovered m; stats := stats m;
     store := store m |}.

Definition with_stats (s : Stats) (m : t) : t :=
  {| connection := connection m; virtualInputs := virtualInputs m;
     virtualOutputs := virtualOutputs m; isConnected := isConnected m;
     connectionState := connectionState m; onMIDIMessage := onMIDIMessage m;
     onConnectionStateChange := onConnectionStateChange m;
     onTargetDiscovered := onTargetDiscovered m; stats := s;
     store := store m |}.

Definition with_store (h : list VirtualInput) (m : t) : t :=
  {| connection := connection m; virtualInputs := virtualInputs m;
     virtualOutputs := virtualOutputs m; isConnected := isConnected m;
     connectionState := connectionState m; onMIDIMessage := onMIDIMessage m;
     onConnectionStateChange := onConnectionStateChange m;
     onTargetDiscovered := onTargetDiscovered m; stats := stats m;
     store := h |}.

Definition with_handlers (onMsg onState onTarget : option handler) (m : t) : t :=
  {| connection := connection m; virtualInputs := virtualInputs m;
     virtualOutputs := virtualOutputs m; isConnected := isConnected m;
     connectionState := connectionState m; onMIDIMessage := onMsg;
     onConnectionStateChange := onState;
     onTargetDiscovered := onTarget; stats := stats m;
     store := store m |}.

(** [new WebRTCMIDIManager(options)]; the options only steer logging. *)
Definition constructor : t :=
  {| connection := None;
     virtualInputs := map_new;
     virtualOutputs := map_new;
     isConnected := false;
     connectionState := "disconnected";
     onMIDIMessage := None;
     onConnectionStateChange := None;
     onTargetDiscovered := None;
     stats := {| messagesReceived := 0; bytesReceived := 0; latency := 0%float |};
     store := [] |}.

(** [initialize()]: a fresh connection in receiver mode, its two callbacks
    wired to [handleMIDIMessage] and [handleConnectionStateChange]. *)
Definition initialize (m : t) : t * list effect :=
  (with_connection (Some {| conn_isConnected := false |}) m, [ConnectionNew]).

Definition createVirtualInput (target : string) (m : t) : ref * t * list effect :=
  let virtualInput :=
    {| in_id := ("webrtc-midi-" ++ target)%string;
       in_name := ("WebRTC MIDI (" ++ target ++ ")")%string;
       in_manufacturer := "WebRTC";
       in_type := "input";
       in_state := "connected";
       in_connection := "open";
       in_target := target;
       onmidimessage := None |} in
  let r := length (store m) in
  let m1 := with_store (store m ++ [virtualInput]) m in
  let m2 := with_virtualInputs (map_set target r (virtualInputs m1)) m1 in
  let notified :=
    match onTargetDiscovered m2 with
    | Some h => [CallOnTargetDiscovered h target r]
    | None => []
    end in
  (r, m2, notified).

Definition handleMIDIMessage (message : Message) (m : t) : t * list effect :=
  let data := msg_data message in
  let timestamp := msg_timestamp message in
  let target := msg_target message in
  let latency' := msg_latency message in
  let m1 :=
    with_stats
      {| messagesReceived := messagesReceived (stats m) + 1;
         bytesReceived := bytesReceived (stats m) + Z.of_nat (length data);
         latency := latency' |} m in
  let '(m2, discovered) :=
    if negb (map_has target (virtualInputs m1))
    then let '(_, m', fx) := createVirtualInput target m1 in (m', fx)
    else (m1, []) in
  let to_input :=
    match map_get target (virtualInputs m2) with
    | Some r =>
        match store m2 !! r with
        | Some virtualInput =>
            match onmidimessage virtualInput with
            | Some h => [CallInputOnMidiMessage h r data timestamp target]
            | None => []
            end
        | None => []
        end
    | None => []
    end in
  let to_global :=
    match onMIDIMessage m2 with
    | Some h => [CallOnMIDIMessage h data timestamp target latency']
    | None => []
    end in
  (m2, discovered ++ to_input ++ to_global).

Definition getVirtualInput (target : string) (m : t) : option ref :=
  map_get target (virtualInputs m).

(** [Array.from(this.virtualInputs.values())], each reference read. *)
Definition getVirtualInputs (m : t) : list VirtualInput :=
  omap (fun r => store m !! r) (map_values (virtualInputs m)).

Definition createVirtualOutput (target : string) (m : t) : VirtualOutput * t :=
  let virtualOutput :=
    {| out_id := ("webrtc-midi-out-" ++ target)%string;
       out_name := ("WebRTC MIDI Out (" ++ target ++ ")")%string;
       out_manufacturer := "WebRTC";
       out_type := "output";
       out_state := "connected";
       out_connection := "open";
       out_target := target |} in
  (virtualOutput,
   with_virtualOutputs (map_set target virtualOutput (virtualOutputs m)) m).

(** The [data] argument of [sendMIDI]: a [Uint8Array] or a plain array of
    numbers, which [new Uint8Array(data)] reduces modulo 256. *)
Inductive MidiData :=
| Bytes (bytes : Uint8Array)
| Numbers (elems : list Z).

Definition toUint8Array (data : MidiData) : Uint8Array :=
  match data with
  | Bytes b => b
  | Numbers xs => map (fun x => x mod 256)%Z xs
  end.

(** [timestamp || performance.now()]: [None] is [undefined]. *)
Definition timestamp_or (timestamp : option float) (now : float) : float :=
  match timestamp with
  | Some f => if PrimFloat.is_zero f || PrimFloat.is_nan f then now else f
  | None => now
  end.

(** [sendMIDI(data, timestamp, target = 'default')]; [now] is what
    [performance.now()] would return. *)
Definition sendMIDI (data : MidiData) (timestamp : option float)
    (target : option string) (now : float) (m : t) : bool * list effect :=
  let target := default "default" target in
  match connection m with
  | None => (false, [])
  | Some c =>
      if negb (conn_isConnected c) then (false, [])
      else
        let midiData := toUint8Array data in
        (true, [ConnectionSendMIDI midiData (timestamp_or timestamp now) target])
  end.

(** The [send] method of a virtual output: the result of [sendMIDI] is
    dropped. *)
Definition output_send (o : VirtualOutput) (data : MidiData)
    (timestamp : option float) (now : float) (m : t) : list effect :=
  snd (sendMIDI data timestamp (Some (out_target o)) now m).

Definition getVirtualOutput (target : string) (m : t) : option VirtualOutput :=
  map_get target (virtualOutputs m).

Definition getVirtualOutputs (m : t) : list VirtualOutput :=
  map_values (virtualOutputs m).

Definition defaultTargets : list string :=
  ["default"; "synth"; "control"; "feedback"].

Definition handleConnectionStateChange (state : string) (m : t) : t * list effect :=
  let m1 := with_state (String.eqb state "connected") state m in
  let notified :=
    match onConnectionStateChange m1 with
    | Some h => [CallOnConnectionStateChange h state]
    | None => []
    end in
  let m2 :=
    if String.eqb state "connected"
    then fold_left (fun acc target => snd (createVirtualOutput target acc))
           defaultTargets m1
    else m1 in
  let m3 :=
    if String.eqb state "disconnected" || String.eqb state "failed"
    then with_virtualOutputs (map_clear (virtualOutputs m2))
           (with_virtualInputs (map_clear (virtualInputs m2)) m2)
    else m2 in
  (m3, notified).

(** The state changes [reports] reach [handleConnectionStateChange] one
    after the other. *)
Definition deliver_reports (reports : list string) (m : t) : t * list effect :=
  fold_left
    (fun acc state =>
       let '(m', fx) := handleConnectionStateChange state (fst acc) in
       (m', snd acc ++ fx))
    reports (m, []).

(** [disconnect()], with the state changes that [connection.close()]
    reports while it runs. *)
Definition disconnect_reporting (reports : list string) (m : t) : t * list effect :=
  let '(m1, closing) :=
    match connection m with
    | Some _ =>
        let '(m', fx) := deliver_reports reports m in
        (with_connection None m', ConnectionClose :: fx)
    | None => (m, [])
    end in
  let m2 := with_virtualInputs (map_clear (virtualInputs m1)) m1 in
  let m3 := with_state false "disconnected" m2 in
  (m3, closing).

Definition disconnect (m : t) : t * list effect :=
  disconnect_reporting close_reports m.

(** [virtualInput.addEventListener(event, handler)] and
    [removeEventListener], on the object at [r]. *)
Definition input_set_onmidimessage (h : option handler) (v : VirtualInput) : VirtualInput :=
  {| in_id := in_id v; in_name := in_name v; in_manufacturer := in_manufacturer v;
     in_type := in_type v; in_state := in_state v; in_connection := in_connection v;
     in_target := in_target v; onmidimessage := h |}.

Definition addEventListener (r : ref) (event : string) (h : handler) (m : t) : t :=
  if String.eqb event "midimessage"
  then with_store (alter (input_set_onmidimessage (Some h)) r (store m)) m
  else m.

Definition removeEventListener (r : ref) (event : string) (h : handler) (m : t) : t :=
  if String.eqb event "midimessage"
  then with_store (alter (input_set_onmidimessage None) r (store m)) m
  else m.

(** *** The manager at run time

    What reaches a manager once it is constructed: calls of the host,
    callbacks of the connection, and the connection changing what
    [isConnected()] answers. *)
Inductive Op :=
| OpInitialize
| OpMessage (message : Message)
| OpStateChange (state : string)
| OpSendMIDI (data : MidiData) (timestamp : option float) (target : option string)
    (now : float)
| OpDisconnect
| OpSetHandlers (onMsg onState onTarget : option handler)
| OpAddEventListener (r : ref) (event : string) (h : handler)
| OpRemoveEventListener (r : ref) (event : string) (h : handler)
| OpConnectionIsConnected (b : bool).

Definition step (op : Op) (m : t) : t * list effect :=
  match op with
  | OpInitialize => initialize m
  | OpMessage message => handleMIDIMessage message m
  | OpStateChange state => handleConnectionStateChange state m
  | OpSendMIDI data timestamp target now =>
      (m, snd (sendMIDI data timestamp target now m))
  | OpDisconnect => disconnect m
  | OpSetHandlers a b c => (with_handlers a b c m, [])
  | OpAddEventListener r event h => (addEventListener r event h m, [])
  | OpRemoveEventListener r event h => (removeEventListener r event h m, [])
  | OpConnectionIsConnected b =>
      (match connection m with
       | Some _ => with_connection (Some {| conn_isConnected := b |}) m
       | None => m
       end, [])
  end.

Fixpoint run (ops : list Op) (m : t) : t * list effect :=
  match ops with
  | [] => (m, [])
  | op :: rest =>
      let '(m1, fx1) := step op m in
      let '(m2, fx2) := run rest m1 in
      (m2, fx1 ++ fx2)
  end.

(** The discovery notifications for [target] among some effects. *)
Definition discoveries (target : string) (fx : list effect) : list effect :=
  List.filter (fun e => match e with
                   | CallOnTargetDiscovered _ t' _ => String.eqb t' target
                   | _ => false
                   end) fx.

(** The input objects ever created for [target]. *)
Definition created_for (target : string) (m : t) : list VirtualInput :=
  List.filter (fun v => String.eqb (in_target v) target) (store m).

(** The keys of the output registry are none or the four default targets. *)
Definition outputs_ok (m : t) : Prop :=
  map_keys (virtualOutputs m) = [] \/ map_keys (virtualOutputs m) = defaultTargets.

(** The inbound messages among some operations, in order, and the bytes
    they carry. *)
Definition messages_of (ops : list Op) : list Message :=
  omap (fun op => match op with OpMessage message => Some message | _ => None end) ops.

Definition total_bytes (messages : list Message) : Z :=
  fold_right (fun message acc => Z.of_nat (length (msg_data message)) + acc)%Z 0%Z messages.

(** What the statistics are after one more message. *)
Definition count_message (message : Message) (s : Stats) : Stats :=
  {| messagesReceived := messagesReceived s + 1;
     bytesReceived := bytesReceived s + Z.of_nat (length (msg_data message));
     latency := msg_latency message |}.

(** A manager whose host listens for discovered targets, and messages for
    two targets. *)
Definition listening : t := with_handlers None None (Some 7) constructor.

Definition message_for (target : string) : Message :=
  {| msg_data := [144; 60; 127]%Z; msg_timestamp := 1000%float;
     msg_target := target; msg_latency := 2%float |}.

(** *** The rest of the manager: the [connected] getter, [processOffer],
    what [getStats()] says of the registry, and the public methods called
    directly *)

(** [get connected()], by its truthiness. *)
Definition connected (m : t) : bool :=
  isConnected m
  && match connection m with
     | Some c => conn_isConnected c
     | None => false
     end.

(** [processOffer(offerJSON)].  [handleOffer] stands for
    [connection.handleOffer], which belongs to the base class: it resolves
    with the answer or rejects. *)
Definition processOffer (handleOffer : string -> Js.completion string)
    (offerJSON : string) (m : t) : Js.completion string :=
  match connection m with
  | None => Js.Throw "Connection not initialized. Call initialize() first."
  | Some _ => handleOffer offerJSON
  end.

(** The two properties that [getStats()] writes after both spreads, so
    that nothing overrides them. *)
Definition getStats_virtualInputs (m : t) : nat := map_size (virtualInputs m).
Definition getStats_targets (m : t) : list string := map_keys (virtualInputs m).

(** Everything that can be called on a manager: the operations above and
    the two [create] methods, which are public as well. *)
Inductive Api :=
| ApiOp (op : Op)
| ApiCreateVirtualInput (target : string)
| ApiCreateVirtualOutput (target : string).

Definition api_step (call : Api) (m : t) : t * list effect :=
  match call with
  | ApiOp op => step op m
  | ApiCreateVirtualInput target =>
      let '(_, m', fx) := createVirtualInput target m in (m', fx)
  | ApiCreateVirtualOutput target => (snd (createVirtualOutput target m), [])
  end.

Fixpoint api_run (calls : list Api) (m : t) : t * list effect :=
  match calls with
  | [] => (m, [])
  | call :: rest =>
      let '(m1, fx1) := api_step call m in
      let '(m2, fx2) := api_run rest m1 in
      (m2, fx1 ++ fx2)
  end.

(** What the object bound to [target] looks like, whatever listener it
    carries. *)
Definition input_for (target : string) (v : VirtualInput) : Prop :=
  in_target v = target
  /\ in_id v = ("webrtc-midi-" ++ target)%string
  /\ in_name v = ("WebRTC MIDI (" ++ target ++ ")")%string
  /\ in_manufacturer v = "WebRTC"
  /\ in_type v = "input".

(** The registry is in order: no target is listed twice, every input
    reference leads to an object made for its target, and every output is
    the one made for its target. *)
Definition registry_parts_ok (inputs : JsMap ref) (outputs : JsMap VirtualOutput)
    (objects : list VirtualInput) : Prop :=
  NoDup (map_keys inputs)
  /\ NoDup (map_keys outputs)
  /\ Forall (fun entry => exists v, objects !! snd entry = Some v
                                    /\ input_for (fst entry) v) inputs
  /\ Forall (fun entry => snd entry = fst (createVirtualOutput (fst entry) constructor))
            outputs.

Definition registry_ok (m : t) : Prop :=
  registry_parts_ok (virtualInputs m) (virtualOutputs m) (store m).

End Manager.

(** ** WebRTCMIDIUI: the parts that do not need the page *)

Module UI.

(** A nonnegative integer below 10^21 as [ToString] prints it. *)
Definition decimal (z : Z) : string :=
  DecimalString.NilZero.string_of_int (Z.to_int z).

(** [(num / den).toFixed(1)] for [0 <= num] and [den] a power of two, so
    that the quotient is exact as a double: the tenths are rounded to the
    nearest, a tie going up, and printed with one digit after the point. *)
Definition toFixed1 (num den : Z) : string :=
  let n := ((10 * num + den / 2) / den)%Z in
  (decimal (n / 10) ++ "." ++ decimal (n mod 10))%string.

(** [formatBytes(bytes)], for the integer counts it is called with. *)
Definition formatBytes (bytes : Z) : string :=
  if (bytes <? 1024)%Z then (decimal bytes ++ "B")%string
  else if (bytes <? 1024 * 1024)%Z then (toFixed1 bytes 1024 ++ "KB")%string
  else (toFixed1 bytes (1024 * 1024) ++ "MB")%string.

(** The event that [handleMIDIMessage] hands to the controller names the
    input by these three properties. *)
Record EventTarget := {
  ev_id : string;
  ev_name : string;
  ev_manufacturer : string
}.

Inductive effect :=
| HandleMIDIInput (data : Uint8Array) (timeStamp : float) (target : EventTarget)
| PopulateMIDIOutputs
| UpdateStats.

(** [handleMIDIMessage(message)]; [has_controller] tells whether there is
    a controller with a [handleMIDIInput] method. *)
Definition handleMIDIMessage (has_controller : bool) (data : Uint8Array)
    (timeStamp : float) (target : string) : list effect :=
  if has_controller
  then [HandleMIDIInput data timeStamp
          {| ev_id := ("webrtc-midi-" ++ target)%string;
             ev_name := ("WebRTC MIDI (" ++ target ++ ")")%string;
             ev_manufacturer := "WebRTC" |}]
  else [].

(** The elements of the page that [updateConnectionStatus] writes. *)
Record Page := {
  statusIndicator_background : string;
  statusText_textContent : string;
  statusText_color : string;
  disconnectBtn_disabled : bool;
  statsPanel_hidden : bool;
  devicesPanel_hidden : bool
}.

(** The controller's view of the status: the page, the handle it keeps in
    [statsInterval] ([None] is null; a handle of [setInterval] is a
    positive number, hence truthy), and on the side of the browser the
    interval timers of this controller that are running and the next
    handle [setInterval] gives out. *)
Record t := {
  page : Page;
  statsInterval : option nat;
  timers : list nat;
  next_handle : nat
}.

(** The constructor leaves [statsInterval] null; [p] is the page as
    loaded and [next] the handle the browser will give out next. *)
Definition constructor (p : Page) (next : nat) : t :=
  {| page := p; statsInterval := None; timers := []; next_handle := next |}.

Definition startStatsUpdate (ui : t) : t * list effect :=
  match statsInterval ui with
  | Some _ => (ui, [])
  | None =>
      ({| page := page ui;
          statsInterval := Some (next_handle ui);
          timers := timers ui ++ [next_handle ui];
          next_handle := S (next_handle ui) |},
       [UpdateStats])
  end.

Definition stopStatsUpdate (ui : t) : t :=
  match statsInterval ui with
  | Some handle =>
      {| page := page ui;
         statsInterval := None;
         timers := List.filter (fun h => negb (Nat.eqb h handle)) (timers ui);
         next_handle := next_handle ui |}
  | None => ui
  end.

Definition with_page (p : Page) (ui : t) : t :=
  {| page := p; statsInterval := statsInterval ui; timers := timers ui;
     next_handle := next_handle ui |}.

(** [updateConnectionStatus(state)]; [can_populate] tells whether the
    controller has [populateMIDIOutputs]. *)
Definition updateConnectionStatus (can_populate : bool) (state : string) (ui : t)
    : t * list effect :=
  let populate := if can_populate then [PopulateMIDIOutputs] else [] in
  if String.eqb state "connected" then
    let ui1 :=
      with_page
        {| statusIndicator_background := "#4a9e4a";
           statusText_textContent := "Connected";
           statusText_color := "#4a9e4a";
           disconnectBtn_disabled := false;
           statsPanel_hidden := false;
           devicesPanel_hidden := false |} ui in
    let '(ui2, fx) := startStatsUpdate ui1 in
    (ui2, populate ++ fx)
  else if String.eqb state "connecting" then
    (with_page
       {| statusIndicator_background := "#4a9eff";
          statusText_textContent := "Connecting...";
          statusText_color := "#4a9eff";
          disconnectBtn_disabled := true;
          statsPanel_hidden := statsPanel_hidden (page ui);
          devicesPanel_hidden := devicesPanel_hidden (page ui) |} ui, [])
  else if String.eqb state "disconnected" || String.eqb state "failed" then
    let ui1 :=
      with_page
        {| statusIndicator_background := "#555";
           statusText_textContent := "Disconnected";
           statusText_color := "#888";
           disconnectBtn_disabled := true;
           statsPanel_hidden := true;
           devicesPanel_hidden := true |} ui in
    (stopStatsUpdate ui1, populate)
  else (ui, []).

(** The handle that the controller keeps is the one timer that runs. *)
Definition timer_kept (ui : t) : Prop :=
  timers ui = match statsInterval ui with Some handle => [handle] | None => [] end.

(** The status updates of a session, one after the other. *)
Definition updates (can_populate : bool) (states : list string) (ui : t) : t :=
  fold_left (fun acc state => fst (updateConnectionStatus can_populate state acc))
            states ui.

(** Whether the statistics should be refreshing after these states: the
    last of 'connected', 'disconnected' and 'failed' decides. *)
Definition refreshing (states : list string) (before : bool) : bool :=
  fold_left
    (fun acc state =>
       if String.eqb state "connected" then true
       else if String.eqb state "disconnected" || String.eqb state "failed" then false
       else acc)
    states before.

End UI.


(** * Properties of the transport bridge *)

Lemma isSource_cases (s : string) :
  (Electron.isSource s = true /\ (s = "usb" \/ s = "rtpmidi" \/ s = "webrtc"))
  \/ (Electron.isSource s = false /\ s <> "usb" /\ s <> "rtpmidi" /\ s <> "webrtc").
Proof.
  unfold Electron.isSource, Electron.source_tags.
  case_bool_decide as H.
  - left. split; [reflexivity|].
    rewrite !elem_of_cons in H. rewrite elem_of_nil in H. tauto.
  - right. split; [reflexivity|].
    rewrite !elem_of_cons in H. tauto.
Qed.

Lemma sendMIDItoRtpMidi_destination (self : Electron.t) (data : Uint8Array) :
  Forall (fun e => Electron.destination e = Electron.RtpMidi)
         (snd (Electron.sendMIDItoRtpMidi self data)).
Proof.
  unfold Electron.sendMIDItoRtpMidi, Electron.try_catch.
  destruct (Electron.rtpMidiEnabled self), (Electron.rtpMidiSession self) as [session|];
    simpl; try constructor.
  destruct (Electron.sendMessage session data); simpl; repeat constructor.
Qed.

(** [(true && v) || (false && w)] is as truthy as [v], and the mirror
    image as truthy as [w]. *)
Lemma truthy_first_edge (v w : Js.value) :
  Js.truthy (Js.or_ (Js.and_ (Js.Bool true) v) (Js.and_ (Js.Bool false) w))
  = Js.truthy v.
Proof.
  unfold Js.or_, Js.and_. cbn.
  destruct (Js.truthy v) eqn:E; [exact E | reflexivity].
Qed.

Lemma truthy_second_edge (v w : Js.value) :
  Js.truthy (Js.or_ (Js.and_ (Js.Bool false) v) (Js.and_ (Js.Bool true) w))
  = Js.truthy w.
Proof. reflexivity. Qed.

(** The shape of [sendMIDI] once the origin is known. *)
Lemma sendMIDI_from_webrtc (self : Electron.t) data ts :
  Electron.sendMIDI self data ts (Some "webrtc") =
  if Electron.isMain self && Electron.rtpMidiEnabled self
     && Js.truthy (Js.prop (Electron.bridgeConfig self) "webrtcToRtpMidi")
  then snd (Electron.sendMIDItoRtpMidi self data) else [].
Proof.
  unfold Electron.sendMIDI.
  change (Electron.source_of (default "default" (Some "webrtc"))) with "webrtc".
  cbv zeta. change ("webrtc" =? "webrtc")%string with true.
  change ("webrtc" =? "rtpmidi")%string with false.
  change ("webrtc" =? "usb")%string with false.
  rewrite truthy_second_edge. cbn [negb app].
  rewrite andb_true_r.
  destruct (Electron.isMain self && Electron.rtpMidiEnabled self); reflexivity.
Qed.

Lemma sendMIDI_from_rtpmidi (self : Electron.t) data ts :
  Electron.sendMIDI self data ts (Some "rtpmidi") =
  if Js.truthy (Js.prop (Electron.bridgeConfig self) "rtpMidiToWebRTC")
  then [Electron.SuperSendMIDI data ts "default"] else [].
Proof.
  unfold Electron.sendMIDI.
  change (Electron.source_of (default "default" (Some "rtpmidi"))) with "rtpmidi".
  change (Electron.channel_of (default "default" (Some "rtpmidi"))) with "default".
  cbv zeta. change ("rtpmidi" =? "webrtc")%string with false.
  change ("rtpmidi" =? "rtpmidi")%string with true.
  change ("rtpmidi" =? "usb")%string with false.
  rewrite truthy_second_edge. cbn [negb].
  rewrite andb_false_r. apply app_nil_r.
Qed.

Lemma source_of_usb (s : string) :
  s <> "rtpmidi" -> s <> "webrtc" -> Electron.source_of s = "usb".
Proof.
  intros Hr Hw. unfold Electron.source_of.
  destruct (isSource_cases s) as [ [ -> [ -> | [ -> | -> ] ] ] | [ -> _ ] ]; congruence.
Qed.

Lemma sendMIDI_from_usb (self : Electron.t) data ts (s : string) :
  s <> "rtpmidi" -> s <> "webrtc" ->
  Electron.sendMIDI self data ts (Some s) =
  (if Js.truthy (Js.prop (Electron.bridgeConfig self) "usbToWebRTC")
   then [Electron.SuperSendMIDI data ts (Electron.channel_of s)] else [])
  ++ (if Electron.isMain self && Electron.rtpMidiEnabled self
         && Js.truthy (Js.prop (Electron.bridgeConfig self) "usbToRtpMidi")
      then snd (Electron.sendMIDItoRtpMidi self data) else []).
Proof.
  intros Hr Hw. unfold Electron.sendMIDI.
  change (default "default" (Some s)) with s. cbv zeta.
  rewrite (source_of_usb s Hr Hw).
  change ("usb" =? "webrtc")%string with false.
  change ("usb" =? "rtpmidi")%string with false.
  change ("usb" =? "usb")%string with true.
  rewrite !truthy_first_edge. cbn [negb].
  rewrite andb_true_r.
  destruct (Electron.isMain self && Electron.rtpMidiEnabled self); reflexivity.
Qed.

(** Only the string behind the default parameter matters. *)
Lemma sendMIDI_default_argument (self : Electron.t) data ts (arg : option string) :
  Electron.sendMIDI self data ts arg
  = Electron.sendMIDI self data ts (Some (default "default" arg)).
Proof. destruct arg; reflexivity. Qed.

Lemma Forall_destination_ne (d d' : Electron.transport) (fx : list Electron.effect) :
  d <> d' ->
  Forall (fun e => Electron.destination e = d) fx ->
  Forall (fun e => Electron.destination e <> d') fx.
Proof.
  intros Hne H. eapply Forall_impl; [exact H|].
  intros e He. cbn in He. congruence.
Qed.

Lemma sendMIDI_destinations (self : Electron.t) data ts (s : string) :
  Forall (fun e => Electron.destination e <> Electron.origin (Some s))
         (Electron.sendMIDI self data ts (Some s)).
Proof.
  unfold Electron.origin. change (default "default" (Some s)) with s.
  destruct (decide (s = "webrtc")) as [ -> | Hw].
  { rewrite sendMIDI_from_webrtc.
    change (Electron.source_of "webrtc") with "webrtc". cbn [String.eqb].
    destruct (_ && _); [|constructor].
    apply (Forall_destination_ne Electron.RtpMidi); [discriminate|].
    apply sendMIDItoRtpMidi_destination. }
  destruct (decide (s = "rtpmidi")) as [ -> | Hr].
  { rewrite sendMIDI_from_rtpmidi.
    change (Electron.source_of "rtpmidi") with "rtpmidi".
    destruct (Js.truthy _); repeat constructor; discriminate. }
  rewrite (sendMIDI_from_usb self data ts s Hr Hw), (source_of_usb s Hr Hw).
  apply Forall_app. split.
  - destruct (Js.truthy _); repeat constructor; discriminate.
  - destruct (_ && _); [|constructor].
    apply (Forall_destination_ne Electron.RtpMidi); [discriminate|].
    apply sendMIDItoRtpMidi_destination.
Qed.

(** C1 -- loop freedom.  Whatever the bridge configuration, the instance
    and the message, no call that [sendMIDI] issues goes to the transport
    the message entered from: with source 'webrtc' nothing is sent over
    WebRTC, with source 'rtpmidi' nothing is sent to the RTP-MIDI session
    (and nothing is ever sent to USB); the handler that bridges inbound
    WebRTC messages sends nothing over WebRTC either. *)
Theorem sendMIDI_never_sends_to_origin
    (self : Electron.t) (data : Uint8Array) (ts : float) (arg : option string) :
  Forall (fun e => Electron.destination e <> Electron.origin arg)
         (Electron.sendMIDI self data ts arg)
  /\ Forall (fun e => Electron.destination e <> Electron.WebRTC)
            (Electron.sendMIDI self data ts (Some "webrtc"))
  /\ Forall (fun e => Electron.destination e <> Electron.RtpMidi)
            (Electron.sendMIDI self data ts (Some "rtpmidi"))
  /\ Forall (fun e => Electron.destination e <> Electron.WebRTC)
            (Electron.bridge_onMIDIMessage self data ts).
Proof.
  repeat split.
  - rewrite sendMIDI_default_argument.
    replace (Electron.origin arg) with (Electron.origin (Some (default "default" arg)))
      by (destruct arg; reflexivity).
    apply sendMIDI_destinations.
  - apply (sendMIDI_destinations self data ts "webrtc").
  - apply (sendMIDI_destinations self data ts "rtpmidi").
  - unfold Electron.bridge_onMIDIMessage.
    destruct (_ && _); [|constructor].
    apply (sendMIDI_destinations self data ts "webrtc").
Qed.

Lemma prop_lookup (o : gmap string Js.value) (k : string) (v : Js.value) :
  o !! k = Some v -> Js.prop o k = v.
Proof. intros H. unfold Js.prop. rewrite H. reflexivity. Qed.

(** C7, as stated, fails.  On a bridge whose edge usbToWebRTC is true and
    whose edge usbToRtpMidi is false, the listener of a hardware input
    named 'USB Keyboard' passes the channel 'synth' to [sendMIDI]: the
    message comes from USB, and it goes out over WebRTC with target
    'synth', not 'default'. *)
Lemma usb_message_target_is_not_always_default :
  Electron.bridgeConfig Electron.usb_only_webrtc !! "usbToWebRTC" = Some (Js.Bool true)
  /\ Electron.bridgeConfig Electron.usb_only_webrtc !! "usbToRtpMidi"
     = Some (Js.Bool false)
  /\ Electron.getChannelForDevice Electron.ascii_toLowerCase None "USB Keyboard"
     = "synth"
  /\ Electron.origin (Some "synth") = Electron.USB
  /\ Electron.webmidi_input_onmidimessage Electron.ascii_toLowerCase None
       Electron.usb_only_webrtc "USB Keyboard" Electron.note_on 1000%float
     = [Electron.SuperSendMIDI Electron.note_on 1000%float "synth"]
  /\ Electron.sendMIDI Electron.usb_only_webrtc Electron.note_on 1000%float
       (Some "synth")
     = [Electron.SuperSendMIDI Electron.note_on 1000%float "synth"]
  /\ Electron.sendMIDI Electron.usb_only_webrtc Electron.note_on 1000%float
       (Some "synth")
     <> [Electron.SuperSendMIDI Electron.note_on 1000%float "default"].
Proof.
  split; [reflexivity|]. split; [reflexivity|]. split; [reflexivity|].
  split; [reflexivity|]. split; [reflexivity|]. split; [reflexivity|].
  change (Electron.sendMIDI Electron.usb_only_webrtc Electron.note_on 1000%float
            (Some "synth"))
    with [Electron.SuperSendMIDI Electron.note_on 1000%float "synth"].
  intros H. injection H as H. discriminate H.
Qed.

(** C7, amended -- scenario A.  With the edge usbToWebRTC true and the
    edge usbToRtpMidi false, a message from USB is handed exactly once to
    the WebRTC channel and the RTP-MIDI session gets nothing: the one call
    to [super.sendMIDI] is all that [sendMIDI] issues.  Its target is the
    channel the call names: 'default' when the call passes the tag 'usb' or
    no third argument at all, the string itself when the call passes any
    string that is not a source tag -- as the listener of a hardware input
    does with the channel of its device. *)
Theorem sendMIDI_usb_to_webrtc_only
    (self : Electron.t) (data : Uint8Array) (ts : float) :
  Electron.bridgeConfig self !! "usbToWebRTC" = Some (Js.Bool true) ->
  Electron.bridgeConfig self !! "usbToRtpMidi" = Some (Js.Bool false) ->
  Electron.sendMIDI self data ts (Some "usb")
    = [Electron.SuperSendMIDI data ts "default"]
  /\ Electron.sendMIDI self data ts None
    = [Electron.SuperSendMIDI data ts "default"]
  /\ (forall s, Electron.origin (Some s) = Electron.USB ->
       Electron.sendMIDI self data ts (Some s)
       = [Electron.SuperSendMIDI data ts (Electron.channel_of s)])
  /\ (forall s, s ∉ Electron.source_tags ->
       Electron.origin (Some s) = Electron.USB
       /\ Electron.sendMIDI self data ts (Some s)
          = [Electron.SuperSendMIDI data ts s])
  /\ (forall toLowerCase deviceName,
       Electron.webmidi_input_onmidimessage toLowerCase None self deviceName data ts
       = [Electron.SuperSendMIDI data ts
            (Electron.getChannelForDevice toLowerCase None deviceName)])
  /\ Electron.webmidi_hotplug_onmidimessage self data ts
     = [Electron.SuperSendMIDI data ts "default"].
Proof.
  intros Hw Hr.
  assert (Husb : forall s, s <> "rtpmidi" -> s <> "webrtc" ->
            Electron.sendMIDI self data ts (Some s)
            = [Electron.SuperSendMIDI data ts (Electron.channel_of s)]).
  { intros s H1 H2. rewrite (sendMIDI_from_usb self data ts s H1 H2).
    rewrite (prop_lookup _ _ _ Hw), (prop_lookup _ _ _ Hr).
    cbn [Js.truthy]. rewrite andb_false_r. reflexivity. }
  assert (Hother : forall s, s ∉ Electron.source_tags ->
            Electron.origin (Some s) = Electron.USB
            /\ Electron.sendMIDI self data ts (Some s)
               = [Electron.SuperSendMIDI data ts s]).
  { intros s Hs. unfold Electron.source_tags in Hs. rewrite !elem_of_cons in Hs.
    assert (Hr' : s <> "rtpmidi") by tauto. assert (Hw' : s <> "webrtc") by tauto.
    split.
    - unfold Electron.origin. change (default "default" (Some s)) with s.
      rewrite (source_of_usb s Hr' Hw'). reflexivity.
    - rewrite (Husb s Hr' Hw'). unfold Electron.channel_of.
      destruct (isSource_cases s) as [ [ _ [ H | [ H | H ] ] ] | [ -> _ ] ];
        [tauto | tauto | tauto | reflexivity]. }
  split; [apply (Husb "usb"); discriminate|].
  split; [apply (Husb "default"); discriminate|].
  split; [intros s Hs; apply Husb; intros ->; discriminate Hs|].
  split; [exact Hother|].
  split; [|apply (Husb "usb"); discriminate].
  intros toLowerCase deviceName. unfold Electron.webmidi_input_onmidimessage.
  cbv zeta. apply Hother.
  unfold Electron.getChannelForDevice, Electron.source_tags. cbv zeta.
  rewrite !elem_of_cons, elem_of_nil.
  destruct (_ || _); [intros [H|[H|[H|[]]]]; discriminate H|].
  destruct (_ || _); [intros [H|[H|[H|[]]]]; discriminate H|].
  destruct (_ || _); intros [H|[H|[H|[]]]]; discriminate H.
Qed.

(** C7, amended, at a bridge in the main process with a live RTP-MIDI
    session, the note-on [0x90, 0x3C, 0x7F], and the channel 'synth'. *)
Lemma sendMIDI_usb_to_webrtc_only_witness :
  Electron.sendMIDI Electron.usb_only_webrtc Electron.note_on 1000%float (Some "usb")
    = [Electron.SuperSendMIDI Electron.note_on 1000%float "default"]
  /\ Electron.sendMIDI Electron.usb_only_webrtc Electron.note_on 1000%float None
    = [Electron.SuperSendMIDI Electron.note_on 1000%float "default"]
  /\ Electron.sendMIDI Electron.usb_only_webrtc Electron.note_on 1000%float
       (Some "synth")
    = [Electron.SuperSendMIDI Electron.note_on 1000%float "synth"]
  /\ Electron.webmidi_input_onmidimessage Electron.ascii_toLowerCase None
       Electron.usb_only_webrtc "Launchpad Mini" Electron.note_on 1000%float
    = [Electron.SuperSendMIDI Electron.note_on 1000%float "control"].
Proof.
  destruct (sendMIDI_usb_to_webrtc_only Electron.usb_only_webrtc Electron.note_on
              1000%float) as (H1 & H2 & H3 & _ & H5 & _); [vm_compute; reflexivity ..|].
  split; [exact H1|]. split; [exact H2|].
  split; [apply (H3 "synth"); reflexivity|].
  apply (H5 Electron.ascii_toLowerCase "Launchpad Mini").
Defined.

Lemma Forall_retarget (P : Electron.effect -> Prop) (fx : list Electron.effect) :
  Forall (fun e => Electron.destination e = Electron.RtpMidi) fx ->
  (forall m, P (Electron.RtpSendMessage m)) ->
  Forall P fx.
Proof.
  intros H HP. eapply Forall_impl; [exact H|].
  intros [d t c|m] He; [discriminate He | apply HP].
Qed.

Lemma map_retarget_rtp (channel : string) (fx : list Electron.effect) :
  Forall (fun e => Electron.destination e = Electron.RtpMidi) fx ->
  map (Electron.retarget channel) fx = fx.
Proof.
  induction 1 as [|e fx He _ IH]; [reflexivity|].
  cbn [map]. rewrite IH. destruct e; [discriminate He | reflexivity].
Qed.

Lemma rtp_session_calls (self : Electron.t) (data : Uint8Array) (b : bool) :
  (if b && Electron.rtpMidiEnabled self
   then snd (Electron.sendMIDItoRtpMidi self data) else [])
  = if b && Electron.rtpMidiEnabled self
    then match Electron.rtpMidiSession self with
         | Some _ => [Electron.RtpSendMessage data]
         | None => []
         end
    else [].
Proof.
  unfold Electron.sendMIDItoRtpMidi, Electron.try_catch.
  destruct b, (Electron.rtpMidiEnabled self); try reflexivity.
  destruct (Electron.rtpMidiSession self) as [session|]; [|reflexivity].
  destruct (Electron.sendMessage session data); reflexivity.
Qed.

Lemma rtp_part_calls (self : Electron.t) (data : Uint8Array) (edge : string) :
  (if Electron.isMain self && Electron.rtpMidiEnabled self
      && Js.truthy (Js.prop (Electron.bridgeConfig self) edge)
   then snd (Electron.sendMIDItoRtpMidi self data) else [])
  = if Electron.isMain self && Electron.rtpMidiEnabled self
       && Js.truthy (Js.prop (Electron.bridgeConfig self) edge)
    then match Electron.rtpMidiSession self with
         | Some _ => [Electron.RtpSendMessage data]
         | None => []
         end
    else [].
Proof.
  pose proof (rtp_session_calls self data
    (Electron.isMain self && Js.truthy (Js.prop (Electron.bridgeConfig self) edge)))
    as H.
  replace (Electron.isMain self && Electron.rtpMidiEnabled self
           && Js.truthy (Js.prop (Electron.bridgeConfig self) edge))
    with (Electron.isMain self && Js.truthy (Js.prop (Electron.bridgeConfig self) edge)
          && Electron.rtpMidiEnabled self)
    by (destruct (Electron.isMain self), (Electron.rtpMidiEnabled self),
          (Js.truthy _); reflexivity).
  exact H.
Qed.

(** C10 -- the third argument of [sendMIDI].  Write [to_webrtc edge
    channel] for one call of [super.sendMIDI] with the payload, the
    timestamp and [channel] when the configuration holds a truthy value
    under [edge], and for no call otherwise; and [to_rtpmidi edge] for one
    call of the session's [sendMessage] with the payload when the process
    is the main one, RTP-MIDI is enabled with a session and [edge] is
    truthy, and for no call otherwise.  Then [sendMIDI] issues exactly:
    for 'usb', [to_webrtc] by usbToWebRTC with target 'default', then
    [to_rtpmidi] by usbToRtpMidi; for 'rtpmidi', [to_webrtc] by
    rtpMidiToWebRTC with target 'default' and nothing else; for 'webrtc',
    [to_rtpmidi] by webrtcToRtpMidi and nothing else; for no argument, what
    it issues for 'usb'; and for any other string, what it issues for
    'usb' with that string as the target.  So one of the three strings is
    read as the origin with the target forced to 'default', and is never
    sent as a target tag; any other string is read as the target with the
    origin taken to be USB. *)
Theorem sendMIDI_reads_third_argument
    (self : Electron.t) (data : Uint8Array) (ts : float) (s : string) :
  let cfg := Js.prop (Electron.bridgeConfig self) in
  let to_webrtc (edge channel : string) :=
    if Js.truthy (cfg edge) then [Electron.SuperSendMIDI data ts channel] else [] in
  let to_rtpmidi (edge : string) :=
    if Electron.isMain self && Electron.rtpMidiEnabled self && Js.truthy (cfg edge)
    then match Electron.rtpMidiSession self with
         | Some _ => [Electron.RtpSendMessage data]
         | None => []
         end
    else [] in
  Electron.sendMIDI self data ts (Some "usb")
    = to_webrtc "usbToWebRTC" "default" ++ to_rtpmidi "usbToRtpMidi"
  /\ Electron.sendMIDI self data ts (Some "rtpmidi")
     = to_webrtc "rtpMidiToWebRTC" "default"
  /\ Electron.sendMIDI self data ts (Some "webrtc")
     = to_rtpmidi "webrtcToRtpMidi"
  /\ Electron.sendMIDI self data ts None
     = to_webrtc "usbToWebRTC" "default" ++ to_rtpmidi "usbToRtpMidi"
  /\ (s ∉ Electron.source_tags ->
      Electron.sendMIDI self data ts (Some s)
      = to_webrtc "usbToWebRTC" s ++ to_rtpmidi "usbToRtpMidi")
  /\ (s ∈ Electron.source_tags ->
     Electron.source_of s = s
     /\ Electron.channel_of s = "default"
     /\ Forall (fun e => Electron.target_tag e = None
                         \/ Electron.target_tag e = Some "default")
               (Electron.sendMIDI self data ts (Some s))
     /\ Forall (fun e => Electron.target_tag e <> Some s)
               (Electron.sendMIDI self data ts (Some s)))
  /\ (s ∉ Electron.source_tags ->
     Electron.source_of s = "usb"
     /\ Electron.channel_of s = s
     /\ Electron.origin (Some s) = Electron.USB
     /\ Electron.sendMIDI self data ts (Some s)
        = map (Electron.retarget s) (Electron.sendMIDI self data ts (Some "usb"))).
Proof.
  intros cfg to_webrtc to_rtpmidi. unfold to_webrtc, to_rtpmidi, cfg.
  assert (Hother : forall s', s' <> "rtpmidi" -> s' <> "webrtc" ->
            Electron.sendMIDI self data ts (Some s')
            = (if Js.truthy (Js.prop (Electron.bridgeConfig self) "usbToWebRTC")
               then [Electron.SuperSendMIDI data ts (Electron.channel_of s')] else [])
              ++ (if Electron.isMain self && Electron.rtpMidiEnabled self
                     && Js.truthy (Js.prop (Electron.bridgeConfig self) "usbToRtpMidi")
                  then match Electron.rtpMidiSession self with
                       | Some _ => [Electron.RtpSendMessage data]
                       | None => []
                       end
                  else [])).
  { intros s' H1 H2. rewrite (sendMIDI_from_usb self data ts s' H1 H2).
    rewrite rtp_part_calls. reflexivity. }
  split; [apply (Hother "usb"); discriminate|].
  split; [apply sendMIDI_from_rtpmidi|].
  split; [rewrite sendMIDI_from_webrtc; apply rtp_part_calls|].
  split.
  { rewrite (sendMIDI_default_argument self data ts None).
    apply (Hother "default"); discriminate. }
  split.
  { intros Hs. unfold Electron.source_tags in Hs. rewrite !elem_of_cons in Hs.
    rewrite (Hother s) by tauto.
    unfold Electron.channel_of.
    destruct (isSource_cases s) as [ [ _ [ H | [ H | H ] ] ] | [ -> _ ] ];
      [tauto | tauto | tauto | reflexivity]. }
  clear Hother to_webrtc to_rtpmidi cfg.

  pose proof (sendMIDItoRtpMidi_destination self data) as Hrtp.
  split; intros Hs.
  - assert (Hc : s = "usb" \/ s = "rtpmidi" \/ s = "webrtc").
    { unfold Electron.source_tags in Hs.
      rewrite !elem_of_cons in Hs. rewrite elem_of_nil in Hs. tauto. }
    destruct Hc as [ -> | [ -> | -> ] ]; (split; [reflexivity|]); (split; [reflexivity|]).
    + rewrite sendMIDI_from_usb by discriminate.
      split; apply Forall_app; split;
        try (destruct (Js.truthy _); repeat constructor; (now right) || discriminate);
        (destruct (_ && _); [|constructor]);
        (apply Forall_retarget; [exact Hrtp|]); intros m; cbn; auto; discriminate.
    + rewrite sendMIDI_from_rtpmidi.
      split; destruct (Js.truthy _); repeat constructor; (now right) || discriminate.
    + rewrite sendMIDI_from_webrtc.
      split; (destruct (_ && _); [|constructor]);
        (apply Forall_retarget; [exact Hrtp|]); intros m; cbn; auto; discriminate.
  - assert (Hne : s <> "usb" /\ s <> "rtpmidi" /\ s <> "webrtc").
    { unfold Electron.source_tags in Hs.
      rewrite !elem_of_cons in Hs. tauto. }
    destruct Hne as (Hu & Hr & Hw).
    assert (Hsrc := source_of_usb s Hr Hw).
    assert (Hch : Electron.channel_of s = s).
    { unfold Electron.channel_of.
      destruct (isSource_cases s) as [ [ _ [ H | [ H | H ] ] ] | [ -> _ ] ];
        congruence. }
    split; [exact Hsrc|]. split; [exact Hch|]. split.
    + unfold Electron.origin. change (default "default" (Some s)) with s.
      rewrite Hsrc. reflexivity.
    + rewrite (sendMIDI_from_usb self data ts s Hr Hw).
      rewrite (sendMIDI_from_usb self data ts "usb") by discriminate.
      rewrite Hch, map_app. f_equal.
      * destruct (Js.truthy _); reflexivity.
      * destruct (_ && _); [|reflexivity].
        symmetry. apply map_retarget_rtp, Hrtp.
Qed.

(** C10 at a bridge built without options, in the main process, with a
    session: a channel name, the tag 'rtpmidi', and the tag 'webrtc'. *)
Lemma sendMIDI_reads_third_argument_witness :
  Electron.sendMIDI Electron.rtp_failing Electron.note_on 1000%float (Some "synth")
    = [Electron.SuperSendMIDI Electron.note_on 1000%float "synth";
       Electron.RtpSendMessage Electron.note_on]
  /\ Electron.sendMIDI Electron.rtp_failing Electron.note_on 1000%float (Some "usb")
     = [Electron.SuperSendMIDI Electron.note_on 1000%float "default";
        Electron.RtpSendMessage Electron.note_on]
  /\ Electron.sendMIDI Electron.rtp_failing Electron.note_on 1000%float (Some "rtpmidi")
     = [Electron.SuperSendMIDI Electron.note_on 1000%float "default"]
  /\ Electron.sendMIDI Electron.rtp_failing Electron.note_on 1000%float (Some "webrtc")
     = [Electron.RtpSendMessage Electron.note_on]
  /\ Forall (fun e => Electron.target_tag e <> Some "rtpmidi")
       (Electron.sendMIDI Electron.rtp_failing Electron.note_on 1000%float
          (Some "rtpmidi"))
  /\ Electron.origin (Some "synth") = Electron.USB.
Proof.
  destruct (sendMIDI_reads_third_argument Electron.rtp_failing Electron.note_on
              1000%float "synth") as (H1 & H2 & H3 & _ & H5 & _ & H7).
  destruct (sendMIDI_reads_third_argument Electron.rtp_failing Electron.note_on
              1000%float "rtpmidi") as (_ & _ & _ & _ & _ & H6 & _).
  assert (Hsynth : "synth" ∉ Electron.source_tags).
  { unfold Electron.source_tags. rewrite !elem_of_cons, elem_of_nil.
    intros [H|[H|[H|[]]]]; discriminate H. }
  assert (Hrtp : "rtpmidi" ∈ Electron.source_tags).
  { unfold Electron.source_tags. rewrite !elem_of_cons. auto. }
  split; [exact (H5 Hsynth)|]. split; [exact H1|]. split; [exact H2|].
  split; [exact H3|]. split; [apply (H6 Hrtp)|]. apply (H7 Hsynth).
Defined.

Lemma strict_ne_false_true (v : Js.value) :
  v <> Js.Bool false -> Js.strict_ne_false v = true.
Proof. destruct v as [| |[|]| | |]; intros H; try reflexivity. congruence. Qed.

Lemma dom_literal_bridgeConfig (options : Electron.Options) :
  dom (Electron.literal_bridgeConfig options) = Electron.edge_names.
Proof.
  unfold Electron.literal_bridgeConfig, Electron.edge_names.
  rewrite !dom_insert_L, dom_singleton_L. set_solver.
Qed.

(** C6, as stated, fails: built without options, the bridge configuration
    has the four edges webrtcToRtpMidi, rtpMidiToWebRTC, usbToWebRTC and
    usbToRtpMidi, not six. *)
Lemma bridgeConfig_has_four_edges_not_six :
  dom (Electron.bridgeConfig (Electron.constructor true Electron.no_options))
    = Electron.edge_names
  /\ size (Electron.bridgeConfig (Electron.constructor true Electron.no_options)) = 4
  /\ size (Electron.bridgeConfig (Electron.constructor true Electron.no_options)) <> 6.
Proof.
  split; [|split].
  - cbn. unfold Electron.constructor_bridgeConfig. cbn.
    rewrite (left_id_L ∅ (∪)). apply dom_literal_bridgeConfig.
  - vm_compute. reflexivity.
  - vm_compute. discriminate.
Qed.

Lemma strict_ne_false_false (v : Js.value) :
  v = Js.Bool false -> Js.strict_ne_false v = false.
Proof. intros ->. reflexivity. Qed.

(** C6, amended.  The constructor writes four edges -- webrtcToRtpMidi,
    rtpMidiToWebRTC, usbToWebRTC, usbToRtpMidi; none leads to USB -- each
    from an option of its own: an edge that [options.bridgeConfig] does not
    override is the boolean [true] unless its option is exactly [false],
    and the boolean [false] when it is.  A property of
    [options.bridgeConfig] replaces the edge of its name or adds one of
    its own, so that the configuration has the four edges and the
    properties of [options.bridgeConfig], and nothing else: without
    [options.bridgeConfig], the four edges are all there is. *)
Theorem constructor_bridgeConfig_four_edges
    (is_main : bool) (options : Electron.Options) :
  let cfg := Electron.bridgeConfig (Electron.constructor is_main options) in
  let override := default ∅ (Electron.opt_bridgeConfig options) in
  let written (flag : Js.value) (edge : string) :=
    override !! edge = None ->
    (flag <> Js.Bool false -> cfg !! edge = Some (Js.Bool true))
    /\ (flag = Js.Bool false -> cfg !! edge = Some (Js.Bool false)) in
  written (Electron.bridgeWebRTCtoRTPMIDI options) "webrtcToRtpMidi"
  /\ written (Electron.bridgeRTPMIDItoWebRTC options) "rtpMidiToWebRTC"
  /\ written (Electron.bridgeUSBtoWebRTC options) "usbToWebRTC"
  /\ written (Electron.bridgeUSBtoRTPMIDI options) "usbToRtpMidi"
  /\ (forall k v, override !! k = Some v -> cfg !! k = Some v)
  /\ dom cfg = Electron.edge_names ∪ dom override
  /\ (Electron.opt_bridgeConfig options = None -> dom cfg = Electron.edge_names).
Proof.
  intros cfg override written. unfold written, cfg, override.
  cbn [Electron.bridgeConfig Electron.constructor].
  unfold Electron.constructor_bridgeConfig.
  split; [|split; [|split; [|split]]].
  1-4: intros Hnone; rewrite lookup_union_r by exact Hnone;
       unfold Electron.literal_bridgeConfig;
       rewrite ?lookup_insert_ne by discriminate;
       rewrite ?lookup_insert_eq, ?lookup_singleton_eq;
       (split; intros Hopt;
        [rewrite strict_ne_false_true by exact Hopt
        |rewrite strict_ne_false_false by exact Hopt]; reflexivity).
  split; [intros k v H; apply lookup_union_Some_l, H|].
  split.
  - rewrite dom_union_L, dom_literal_bridgeConfig. apply (comm_L (∪)).
  - intros ->. cbn. rewrite (left_id_L ∅ (∪)). apply dom_literal_bridgeConfig.
Qed.

(** C6, amended, at a bridge built with [bridgeUSBtoRTPMIDI: false], and
    at one whose [bridgeConfig] option turns usbToWebRTC on again. *)
Lemma constructor_bridgeConfig_four_edges_witness :
  let off :=
    {| Electron.bridgeWebRTCtoRTPMIDI := Js.Undefined;
       Electron.bridgeRTPMIDItoWebRTC := Js.Undefined;
       Electron.bridgeUSBtoWebRTC := Js.Undefined;
       Electron.bridgeUSBtoRTPMIDI := Js.Bool false;
       Electron.opt_bridgeConfig := None |} in
  let cfg := Electron.bridgeConfig (Electron.constructor true off) in
  cfg !! "webrtcToRtpMidi" = Some (Js.Bool true)
  /\ cfg !! "rtpMidiToWebRTC" = Some (Js.Bool true)
  /\ cfg !! "usbToWebRTC" = Some (Js.Bool true)
  /\ cfg !! "usbToRtpMidi" = Some (Js.Bool false)
  /\ dom cfg = Electron.edge_names
  /\ Electron.bridgeConfig (Electron.constructor true Electron.flag_off_override_on)
       !! "usbToWebRTC" = Some (Js.Bool true).
Proof.
  intros off cfg.
  destruct (constructor_bridgeConfig_four_edges true off)
    as (H1 & H2 & H3 & H4 & _ & _ & H7).
  destruct (constructor_bridgeConfig_four_edges true Electron.flag_off_override_on)
    as (_ & _ & _ & _ & H5 & _).
  split; [apply (H1 eq_refl); discriminate|].
  split; [apply (H2 eq_refl); discriminate|].
  split; [apply (H3 eq_refl); discriminate|].
  split; [apply (H4 eq_refl); reflexivity|].
  split; [apply H7; reflexivity|].
  apply H5. reflexivity.
Defined.


(** * Properties of the JS [Map] *)

Section JsMapFacts.
Context {V : Type}.
Implicit Types (m : JsMap V) (k : string) (v : V).

Lemma map_has_set k k' v m :
  map_has k' (map_set k v m) = String.eqb k' k || map_has k' m.
Proof.
  unfold map_has. induction m as [|[k0 v0] m IH]; cbn.
  - rewrite orb_false_r. reflexivity.
  - destruct (String.eqb_spec k k0) as [->|Hne]; cbn.
    + destruct (String.eqb k' k0); reflexivity.
    + rewrite IH. destruct (String.eqb k' k0), (String.eqb k' k); reflexivity.
Qed.

Lemma map_get_set_eq k v m : map_get k (map_set k v m) = Some v.
Proof.
  induction m as [|[k0 v0] m IH]; cbn.
  - rewrite String.eqb_refl. reflexivity.
  - destruct (String.eqb_spec k k0) as [->|Hne]; cbn.
    + rewrite String.eqb_refl. reflexivity.
    + destruct (String.eqb_spec k k0); [contradiction | exact IH].
Qed.

Lemma map_get_set_ne k k' v m :
  k' <> k -> map_get k' (map_set k v m) = map_get k' m.
Proof.
  intros Hne. induction m as [|[k0 v0] m IH]; cbn.
  - destruct (String.eqb_spec k' k); [contradiction | reflexivity].
  - destruct (String.eqb_spec k k0) as [->|Hne0]; cbn.
    + destruct (String.eqb_spec k' k0); [contradiction | reflexivity].
    + rewrite IH. reflexivity.
Qed.

Lemma map_keys_set k v m :
  map_keys (map_set k v m)
  = if map_has k m then map_keys m else map_keys m ++ [k].
Proof.
  unfold map_keys, map_has. induction m as [|[k0 v0] m IH]; cbn; [reflexivity|].
  destruct (String.eqb_spec k k0) as [->|Hne]; cbn; [reflexivity|].
  rewrite IH. destruct (existsb _ m); reflexivity.
Qed.

Lemma map_has_get k m : map_has k m = true <-> is_Some (map_get k m).
Proof.
  unfold map_has. induction m as [|[k0 v0] m IH]; cbn.
  - split; [discriminate | intros [x Hx]; discriminate].
  - destruct (String.eqb k k0); cbn; [|exact IH].
    split; [intros _; eexists; reflexivity | reflexivity].
Qed.

End JsMapFacts.

(** * Properties of the manager *)

Import Manager.

(** ** Virtual outputs on connect *)

Lemma connected_outputs (m : t) :
  outputs_ok m ->
  virtualOutputs (fst (handleConnectionStateChange "connected" m))
  = map (fun target => (target, fst (createVirtualOutput target m))) defaultTargets.
Proof.
  intros [H|H]; unfold handleConnectionStateChange; cbn;
    destruct (virtualOutputs m)
      as [|[k1 v1] [|[k2 v2] [|[k3 v3] [|[k4 v4] [|[k5 v5] rest]]]]];
    try discriminate H; cbn in H.
  - reflexivity.
  - injection H as -> -> -> ->. reflexivity.
Qed.

Lemma handleConnectionStateChange_outputs (state : string) (m : t) :
  virtualOutputs (fst (handleConnectionStateChange state m))
  = if String.eqb state "connected"
    then virtualOutputs (fst (handleConnectionStateChange "connected" m))
    else if String.eqb state "disconnected" || String.eqb state "failed"
    then [] else virtualOutputs m.
Proof.
  destruct (String.eqb_spec state "connected") as [->|Hc]; [reflexivity|].
  unfold handleConnectionStateChange; cbn.
  destruct (String.eqb_spec state "connected"); [contradiction|].
  destruct (_ || _); reflexivity.
Qed.

Lemma handleConnectionStateChange_outputs_ok (state : string) (m : t) :
  outputs_ok m -> outputs_ok (fst (handleConnectionStateChange state m)).
Proof.
  intros H. unfold outputs_ok. rewrite handleConnectionStateChange_outputs.
  destruct (String.eqb state "connected").
  - right. rewrite (connected_outputs m H). reflexivity.
  - destruct (_ || _); [left; reflexivity | exact H].
Qed.

Lemma deliver_reports_outputs_ok (reports : list string) (m : t) (fx : list effect) :
  outputs_ok m ->
  outputs_ok (fst (fold_left
    (fun acc state =>
       let '(m', fx') := handleConnectionStateChange state (fst acc) in
       (m', snd acc ++ fx'))
    reports (m, fx))).
Proof.
  revert m fx. induction reports as [|state reports IH]; intros m fx H; [exact H|].
  cbn [fold_left fst snd].
  pose proof (handleConnectionStateChange_outputs_ok state m H) as H'.
  destruct (handleConnectionStateChange state m) as [m' fx']. apply IH, H'.
Qed.

Lemma disconnect_reporting_outputs_ok (reports : list string) (m : t) :
  outputs_ok m -> outputs_ok (fst (disconnect_reporting reports m)).
Proof.
  intros H. unfold disconnect_reporting.
  destruct (connection m); [|exact H].
  pose proof (deliver_reports_outputs_ok reports m [] H) as H'.
  unfold deliver_reports.
  destruct (fold_left _ reports (m, [])) as [m' fx']. exact H'.
Qed.

Lemma handleMIDIMessage_outputs (message : Message) (m : t) :
  virtualOutputs (fst (handleMIDIMessage message m)) = virtualOutputs m.
Proof.
  unfold handleMIDIMessage.
  destruct (negb _); reflexivity.
Qed.

Lemma step_outputs_ok (op : Op) (m : t) :
  outputs_ok m -> outputs_ok (fst (step op m)).
Proof.
  intros H. destruct op; cbn [step fst]; try exact H.
  - unfold outputs_ok. rewrite handleMIDIMessage_outputs. exact H.
  - apply handleConnectionStateChange_outputs_ok, H.
  - apply disconnect_reporting_outputs_ok, H.
  - unfold addEventListener. destruct (String.eqb _ _); exact H.
  - unfold removeEventListener. destruct (String.eqb _ _); exact H.
  - destruct (connection m); exact H.
Qed.

Lemma run_outputs_ok (ops : list Op) (m : t) :
  outputs_ok m -> outputs_ok (fst (run ops m)).
Proof.
  revert m. induction ops as [|op ops IH]; intros m H; [exact H|].
  cbn [run]. pose proof (step_outputs_ok op m H) as H1.
  destruct (step op m) as [m1 fx1].
  specialize (IH m1 H1). destruct (run ops m1) as [m2 fx2]. exact IH.
Qed.

(** C2 -- scenario B.  Whatever the manager went through since it was
    constructed, a change of the connection state to 'connected' leaves
    the output registry with exactly the four entries 'default', 'synth',
    'control', 'feedback', in this order, each holding the output built for
    its target: [getVirtualOutputs()] then returns these four. *)
Theorem connected_creates_four_outputs (ops : list Op) :
  let m := fst (run ops constructor) in
  let m' := fst (handleConnectionStateChange "connected" m) in
  map_keys (virtualOutputs m') = ["default"; "synth"; "control"; "feedback"]
  /\ getVirtualOutputs m'
     = map (fun target => fst (createVirtualOutput target m))
           ["default"; "synth"; "control"; "feedback"]
  /\ map out_target (getVirtualOutputs m')
     = ["default"; "synth"; "control"; "feedback"]
  /\ length (getVirtualOutputs m') = 4.
Proof.
  intros m m'.
  assert (H : outputs_ok m) by (apply run_outputs_ok; left; reflexivity).
  unfold getVirtualOutputs, m'. rewrite (connected_outputs m H).
  repeat split.
Qed.

(** C3, the part that holds: a change to 'disconnected' or 'failed' clears
    the virtual devices of both directions, and [disconnect()] clears the
    virtual inputs. *)
Lemma disconnected_or_failed_clears_devices (state : string) (m : t) :
  state = "disconnected" \/ state = "failed" ->
  getVirtualInputs (fst (handleConnectionStateChange state m)) = []
  /\ getVirtualOutputs (fst (handleConnectionStateChange state m)) = [].
Proof. intros [->| ->]; split; reflexivity. Qed.

Lemma disconnect_clears_inputs (reports : list string) (m : t) :
  getVirtualInputs (fst (disconnect_reporting reports m)) = [].
Proof.
  unfold disconnect_reporting.
  destruct (connection m); [destruct (deliver_reports reports m)|]; reflexivity.
Qed.

(** C3, where it fails: [disconnect()] clears [virtualInputs] only.  After
    initialize, connect and [disconnect()], [getVirtualOutputs()] still
    returns the four outputs created on connect, whether [close()] reports
    'closed' on its way or reports nothing. *)
Theorem disconnect_keeps_virtual_outputs :
  let connected := fst (run [OpInitialize; OpStateChange "connected"] constructor) in
  map out_target (getVirtualOutputs (fst (disconnect connected)))
    = ["default"; "synth"; "control"; "feedback"]
  /\ map out_target (getVirtualOutputs (fst (disconnect_reporting [] connected)))
    = ["default"; "synth"; "control"; "feedback"]
  /\ getVirtualOutputs (fst (disconnect connected)) <> []
  /\ connectionState (fst (disconnect connected)) = "disconnected"
  /\ getVirtualInputs (fst (disconnect connected)) = [].
Proof. repeat split. discriminate. Qed.

(** ** Statistics *)

Lemma handleConnectionStateChange_stats (state : string) (m : t) :
  stats (fst (handleConnectionStateChange state m)) = stats m.
Proof.
  unfold handleConnectionStateChange.
  destruct (String.eqb state "connected"), (_ || _); reflexivity.
Qed.

Lemma deliver_reports_stats (reports : list string) (m : t) (fx : list effect) :
  stats (fst (fold_left
    (fun acc state =>
       let '(m', fx') := handleConnectionStateChange state (fst acc) in
       (m', snd acc ++ fx'))
    reports (m, fx))) = stats m.
Proof.
  revert m fx. induction reports as [|state reports IH]; intros m fx; [reflexivity|].
  cbn [fold_left fst snd].
  pose proof (handleConnectionStateChange_stats state m) as H.
  destruct (handleConnectionStateChange state m) as [m' fx'].
  rewrite IH. exact H.
Qed.

Lemma disconnect_reporting_stats (reports : list string) (m : t) :
  stats (fst (disconnect_reporting reports m)) = stats m.
Proof.
  unfold disconnect_reporting. destruct (connection m); [|reflexivity].
  pose proof (deliver_reports_stats reports m []) as H. unfold deliver_reports.
  destruct (fold_left _ reports (m, [])) as [m' fx']. exact H.
Qed.

Lemma handleMIDIMessage_stats (message : Message) (m : t) :
  stats (fst (handleMIDIMessage message m)) = count_message message (stats m).
Proof.
  unfold handleMIDIMessage. destruct (negb _); reflexivity.
Qed.

Lemma step_stats (op : Op) (m : t) :
  stats (fst (step op m))
  = match op with
    | OpMessage message => count_message message (stats m)
    | _ => stats m
    end.
Proof.
  destruct op; cbn [step fst]; try reflexivity.
  - apply handleMIDIMessage_stats.
  - apply handleConnectionStateChange_stats.
  - apply disconnect_reporting_stats.
  - unfold addEventListener. destruct (String.eqb _ _); reflexivity.
  - unfold removeEventListener. destruct (String.eqb _ _); reflexivity.
  - destruct (connection m); reflexivity.
Qed.

Lemma run_stats (ops : list Op) (m : t) :
  stats (fst (run ops m))
  = fold_left (fun s message => count_message message s) (messages_of ops) (stats m).
Proof.
  revert m. induction ops as [|op ops IH]; intros m; [reflexivity|].
  cbn [run]. pose proof (step_stats op m) as H.
  destruct (step op m) as [m1 fx1]. specialize (IH m1).
  destruct (run ops m1) as [m2 fx2]. cbn [fst] in *.
  rewrite IH, H. destruct op; reflexivity.
Qed.

Lemma count_messages_received (messages : list Message) (s : Stats) :
  messagesReceived (fold_left (fun s message => count_message message s) messages s)
  = (messagesReceived s + Z.of_nat (length messages))%Z
  /\ bytesReceived (fold_left (fun s message => count_message message s) messages s)
  = (bytesReceived s + total_bytes messages)%Z
  /\ latency (fold_left (fun s message => count_message message s) messages s)
  = match last messages with
    | Some message => msg_latency message
    | None => latency s
    end.
Proof.
  revert s. induction messages as [|message messages IH]; intros s.
  - cbn. split; [lia | split; [lia | reflexivity]].
  - cbn [fold_left]. destruct (IH (count_message message s)) as (H1 & H2 & H3).
    change (total_bytes (message :: messages))
      with (Z.of_nat (length (msg_data message)) + total_bytes messages)%Z.
    split; [|split].
    + rewrite H1. cbn [count_message messagesReceived length]. lia.
    + rewrite H2. cbn [count_message bytesReceived]. lia.
    + rewrite H3, last_cons. destruct (last messages); reflexivity.
Qed.

Lemma total_bytes_nonneg (messages : list Message) : (0 <= total_bytes messages)%Z.
Proof.
  induction messages as [|message messages IH]; [cbn; lia|].
  change (total_bytes (message :: messages))
    with (Z.of_nat (length (msg_data message)) + total_bytes messages)%Z.
  lia.
Qed.

(** C8 -- statistics.  A message handled by [handleMIDIMessage] adds
    exactly 1 to [messagesReceived] and the length of its payload to
    [bytesReceived], and makes [latency] the latency of that message; every
    other operation of the manager -- [disconnect()], every change of
    the connection state and direct calls of [createVirtualInput] and
    [createVirtualOutput] included -- leaves the statistics as they are.
    So after any run the counters are what they were plus the number of
    messages and the bytes received: they never go down and never return
    to zero; [latency] is that of the last message; only the constructor
    sets them to zero. *)
Theorem stats_count_messages_only (ops : list Op) (op : Op) (m : t) :
  stats (fst (step op m))
    = match op with
      | OpMessage message =>
          {| messagesReceived := messagesReceived (stats m) + 1;
             bytesReceived :=
               bytesReceived (stats m) + Z.of_nat (length (msg_data message));
             latency := msg_latency message |}
      | _ => stats m
      end
  /\ messagesReceived (stats (fst (run ops m)))
     = (messagesReceived (stats m) + Z.of_nat (length (messages_of ops)))%Z
  /\ bytesReceived (stats (fst (run ops m)))
     = (bytesReceived (stats m) + total_bytes (messages_of ops))%Z
  /\ (messagesReceived (stats m) <= messagesReceived (stats (fst (run ops m))))%Z
  /\ (bytesReceived (stats m) <= bytesReceived (stats (fst (run ops m))))%Z
  /\ latency (stats (fst (run ops m)))
     = match last (messages_of ops) with
       | Some message => msg_latency message
       | None => latency (stats m)
       end
  /\ (forall target, stats (snd (fst (createVirtualInput target m))) = stats m)
  /\ (forall target, stats (snd (createVirtualOutput target m)) = stats m)
  /\ messagesReceived (stats constructor) = 0%Z
  /\ bytesReceived (stats constructor) = 0%Z.
Proof.
  split; [apply step_stats|].
  rewrite run_stats.
  destruct (count_messages_received (messages_of ops) (stats m)) as (H1 & H2 & H3).
  pose proof (total_bytes_nonneg (messages_of ops)).
  rewrite H1, H2, H3. repeat split; lia.
Qed.

(** ** Send failures *)

(** C9 -- send failures come back as [false], not as exceptions.
    [WebRTCMIDIManager.sendMIDI] returns [false] and calls nothing when
    there is no connection or the connection is not connected, and
    otherwise returns [true] after one call of [connection.sendMIDI].
    [sendMIDItoRtpMidi] always returns a boolean: [false] without a call
    when RTP-MIDI is disabled or has no session, and [false] when
    [sendMessage] throws. *)
Theorem send_failures_return_false
    (m : t) (data : MidiData) (timestamp : option float) (target : option string)
    (now : float) (self : Electron.t) (bytes : Uint8Array) :
  (connection m = None -> sendMIDI data timestamp target now m = (false, []))
  /\ (forall c, connection m = Some c -> conn_isConnected c = false ->
        sendMIDI data timestamp target now m = (false, []))
  /\ (forall c, connection m = Some c -> conn_isConnected c = true ->
        sendMIDI data timestamp target now m
        = (true, [ConnectionSendMIDI (toUint8Array data)
                    (timestamp_or timestamp now) (default "default" target)]))
  /\ (exists b : bool, fst (Electron.sendMIDItoRtpMidi self bytes) = Js.Return b)
  /\ (Electron.rtpMidiEnabled self = false \/ Electron.rtpMidiSession self = None ->
        Electron.sendMIDItoRtpMidi self bytes = (Js.Return false, []))
  /\ (forall session error,
        Electron.rtpMidiEnabled self = true ->
        Electron.rtpMidiSession self = Some session ->
        Electron.sendMessage session bytes = Js.Throw error ->
        fst (Electron.sendMIDItoRtpMidi self bytes) = Js.Return false).
Proof.
  unfold sendMIDI, Electron.sendMIDItoRtpMidi, Electron.try_catch.
  split; [intros ->; reflexivity|].
  split; [intros c -> ->; reflexivity|].
  split; [intros c -> ->; reflexivity|].
  split; [|split].
  - destruct (Electron.rtpMidiEnabled self), (Electron.rtpMidiSession self) as [session|];
      try (exists false; reflexivity).
    destruct (Electron.sendMessage session bytes);
      [exists true | exists false]; reflexivity.
  - intros [-> | ->]; [reflexivity|].
    destruct (Electron.rtpMidiEnabled self); reflexivity.
  - intros session error -> -> ->. reflexivity.
Qed.

(** C9 at a manager without connection, with a connection that is not
    connected and with one that is, and at a bridge without session and
    one whose session throws. *)
Lemma send_failures_return_false_witness :
  sendMIDI (Numbers [144; 60; 127]%Z) None None 5%float constructor = (false, [])
  /\ sendMIDI (Numbers [144; 60; 127]%Z) None None 5%float
       (fst (initialize constructor)) = (false, [])
  /\ sendMIDI (Numbers [144; 60; 127]%Z) None (Some "synth") 5%float
       (fst (run [OpInitialize; OpConnectionIsConnected true] constructor))
     = (true, [ConnectionSendMIDI [144; 60; 127]%Z 5%float "synth"])
  /\ Electron.sendMIDItoRtpMidi (Electron.constructor true Electron.no_options)
       Electron.note_on = (Js.Return false, [])
  /\ fst (Electron.sendMIDItoRtpMidi Electron.rtp_failing Electron.note_on)
     = Js.Return false.
Proof.
  split; [|split; [|split; [|split]]].
  - apply (send_failures_return_false constructor (Numbers [144; 60; 127]%Z) None None
             5%float Electron.rtp_failing Electron.note_on).
    reflexivity.
  - apply (send_failures_return_false (fst (initialize constructor))
             (Numbers [144; 60; 127]%Z) None None 5%float
             Electron.rtp_failing Electron.note_on) with (c := {| conn_isConnected := false |});
      reflexivity.
  - apply (send_failures_return_false
             (fst (run [OpInitialize; OpConnectionIsConnected true] constructor))
             (Numbers [144; 60; 127]%Z) None (Some "synth") 5%float
             Electron.rtp_failing Electron.note_on) with (c := {| conn_isConnected := true |});
      reflexivity.
  - apply (send_failures_return_false constructor (Numbers [144; 60; 127]%Z) None None
             5%float (Electron.constructor true Electron.no_options) Electron.note_on).
    left. reflexivity.
  - apply (send_failures_return_false constructor (Numbers [144; 60; 127]%Z) None None
             5%float Electron.rtp_failing Electron.note_on)
      with (session := {| Electron.sendMessage := fun _ => Js.Throw "socket closed" |})
           (error := "socket closed");
      reflexivity.
Defined.

(** ** Discovery of targets *)

(** Handing the message to the input's listener and to the global handler
    is no discovery. *)
Lemma discoveries_app (T : string) (fx fx' : list effect) :
  discoveries T (fx ++ fx') = discoveries T fx ++ discoveries T fx'.
Proof. unfold discoveries. apply List.filter_app. Qed.

Lemma handleMIDIMessage_delivery (T : string) (message : Message) (m : t) :
  discoveries T
    (match map_get (msg_target message) (virtualInputs m) with
     | Some r =>
         match store m !! r with
         | Some virtualInput =>
             match onmidimessage virtualInput with
             | Some h => [CallInputOnMidiMessage h r (msg_data message)
                            (msg_timestamp message) (msg_target message)]
             | None => []
             end
         | None => []
         end
     | None => []
     end ++
     match onMIDIMessage m with
     | Some h => [CallOnMIDIMessage h (msg_data message) (msg_timestamp message)
                    (msg_target message) (msg_latency message)]
     | None => []
     end) = [].
Proof.
  rewrite discoveries_app.
  destruct (map_get _ _) as [r|]; [destruct (store m !! r) as [v|];
    [destruct (onmidimessage v)|]|]; destruct (onMIDIMessage m); reflexivity.
Qed.

Lemma handleMIDIMessage_known (message : Message) (m : t) :
  map_has (msg_target message) (virtualInputs m) = true ->
  virtualInputs (fst (handleMIDIMessage message m)) = virtualInputs m
  /\ store (fst (handleMIDIMessage message m)) = store m
  /\ onTargetDiscovered (fst (handleMIDIMessage message m)) = onTargetDiscovered m
  /\ forall T, discoveries T (snd (handleMIDIMessage message m)) = [].
Proof.
  intros Hhas. unfold handleMIDIMessage.
  cbn [virtualInputs with_stats]. rewrite Hhas. cbn [negb fst snd app].
  repeat split. intros T.
  apply (handleMIDIMessage_delivery T message (with_stats _ m)).
Qed.

Lemma handleMIDIMessage_new (message : Message) (m : t) :
  map_has (msg_target message) (virtualInputs m) = false ->
  virtualInputs (fst (handleMIDIMessage message m))
    = map_set (msg_target message) (length (store m)) (virtualInputs m)
  /\ (exists device,
        store (fst (handleMIDIMessage message m)) = store m ++ [device]
        /\ in_target device = msg_target message
        /\ onmidimessage device = None)
  /\ onTargetDiscovered (fst (handleMIDIMessage message m)) = onTargetDiscovered m
  /\ forall T, discoveries T (snd (handleMIDIMessage message m))
       = match onTargetDiscovered m with
         | Some h =>
             if String.eqb (msg_target message) T
             then [CallOnTargetDiscovered h (msg_target message) (length (store m))]
             else []
         | None => []
         end.
Proof.
  intros Hhas. unfold handleMIDIMessage.
  cbn [virtualInputs with_stats]. rewrite Hhas.
  unfold createVirtualInput. cbn [negb fst snd].
  split; [reflexivity|]. split; [eexists; repeat split|]. split; [reflexivity|].
  intros T. rewrite discoveries_app.
  pose proof (handleMIDIMessage_delivery T message
    (snd (fst (createVirtualInput (msg_target message)
                 (with_stats (count_message message (stats m)) m))))) as Hd.
  cbn in Hd |- *. rewrite Hd, app_nil_r.
  destruct (onTargetDiscovered m); [|reflexivity].
  cbn. destruct (String.eqb _ T); reflexivity.
Qed.

Lemma run_message (message : Message) (later : list Message) (m : t) :
  run (map OpMessage (message :: later)) m
  = (fst (run (map OpMessage later) (fst (handleMIDIMessage message m))),
     snd (handleMIDIMessage message m)
     ++ snd (run (map OpMessage later) (fst (handleMIDIMessage message m)))).
Proof.
  cbn [map run step]. destruct (handleMIDIMessage message m) as [m1 fx1].
  cbn [fst snd]. destruct (run _ m1); reflexivity.
Qed.

(** Once a target is registered, further messages -- for this target or
    any other -- leave its entry and the objects created for it alone,
    and announce it no more. *)
Lemma later_messages (T : string) (r : ref) (later : list Message) (m : t) :
  map_get T (virtualInputs m) = Some r ->
  map_get T (virtualInputs (fst (run (map OpMessage later) m))) = Some r
  /\ created_for T (fst (run (map OpMessage later) m)) = created_for T m
  /\ discoveries T (snd (run (map OpMessage later) m)) = [].
Proof.
  revert m. induction later as [|message later IH]; intros m Hget.
  { cbn. auto. }
  rewrite run_message. cbn [fst snd]. rewrite discoveries_app.
  destruct (map_has (msg_target message) (virtualInputs m)) eqn:Hhas.
  - destruct (handleMIDIMessage_known message m Hhas) as (Hin & Hst & _ & Hd).
    destruct (IH (fst (handleMIDIMessage message m))) as (H1 & H2 & H3).
    { rewrite Hin. exact Hget. }
    rewrite H1, H2, H3, Hd. unfold created_for. rewrite Hst. auto.
  - assert (Hne : msg_target message <> T).
    { intros Heq. rewrite Heq in Hhas.
      apply not_true_iff_false in Hhas. apply Hhas.
      apply map_has_get. rewrite Hget. eexists; reflexivity. }
    destruct (handleMIDIMessage_new message m Hhas)
      as (Hin & (device & Hst & Htarget & _) & _ & Hd).
    destruct (IH (fst (handleMIDIMessage message m))) as (H1 & H2 & H3).
    { rewrite Hin. rewrite map_get_set_ne by congruence. exact Hget. }
    rewrite H1, H2, H3, Hd. unfold created_for. rewrite Hst, List.filter_app.
    cbn [List.filter]. rewrite Htarget.
    apply String.eqb_neq in Hne. rewrite Hne, !app_nil_r.
    destruct (onTargetDiscovered m); auto.
Qed.

(** Before the first message for a target, messages for other targets
    neither register it nor create or announce anything for it. *)
Lemma earlier_messages (T : string) (before : list Message) (m : t) :
  map_has T (virtualInputs m) = false ->
  Forall (fun message => msg_target message <> T) before ->
  map_has T (virtualInputs (fst (run (map OpMessage before) m))) = false
  /\ onTargetDiscovered (fst (run (map OpMessage before) m)) = onTargetDiscovered m
  /\ created_for T (fst (run (map OpMessage before) m)) = created_for T m
  /\ discoveries T (snd (run (map OpMessage before) m)) = [].
Proof.
  intros Hhas Hbefore. revert m Hhas.
  induction Hbefore as [|message before Hne _ IH]; intros m HT.
  { cbn. auto. }
  rewrite run_message. cbn [fst snd]. rewrite discoveries_app.
  pose proof Hne as Hneb. apply String.eqb_neq in Hneb.
  destruct (map_has (msg_target message) (virtualInputs m)) eqn:Hhas.
  - destruct (handleMIDIMessage_known message m Hhas) as (Hin & Hst & Hh & Hd).
    destruct (IH (fst (handleMIDIMessage message m))) as (H1 & H2 & H3 & H4).
    { rewrite Hin. exact HT. }
    rewrite H1, H2, H3, H4, Hd, Hh. unfold created_for. rewrite Hst. auto.
  - destruct (handleMIDIMessage_new message m Hhas)
      as (Hin & (device & Hst & Htarget & _) & Hh & Hd).
    destruct (IH (fst (handleMIDIMessage message m))) as (H1 & H2 & H3 & H4).
    { rewrite Hin, map_has_set, HT, orb_false_r.
      apply String.eqb_neq. congruence. }
    rewrite H1, H2, H3, H4, Hd, Hh. unfold created_for.
    rewrite Hst, List.filter_app. cbn [List.filter].
    rewrite Htarget, Hneb, !app_nil_r.
    destruct (onTargetDiscovered m); auto.
Qed.

Lemma run_app (ops ops' : list Op) (m : t) :
  run (ops ++ ops') m
  = (fst (run ops' (fst (run ops m))),
     snd (run ops m) ++ snd (run ops' (fst (run ops m)))).
Proof.
  revert m. induction ops as [|op ops IH]; intros m.
  { cbn. destruct (run ops' m); reflexivity. }
  cbn [app run]. destruct (step op m) as [m1 fx1]. rewrite IH.
  destruct (run ops m1) as [m2 fx2]. cbn [fst snd].
  rewrite app_assoc. reflexivity.
Qed.

(** C4 -- discovery happens once per target.  Take a manager with a
    discovery handler on which the target T is not registered, and a
    sequence of inbound messages in which [first] is the first one for T.
    The messages before it create and announce nothing for T.  Handling
    [first] creates one input object for T, registers it under T at the end
    of the registry, and calls the handler once with T and that object.
    Whatever messages come later, for T or for other targets, no further
    object is created for T, T stays bound to the same object, and the
    handler is not called for T again: over the whole sequence there is one
    object and one notification for T. *)
Theorem first_message_discovers_target_once
    (m : t) (h : handler) (before : list Message) (first : Message)
    (later : list Message) :
  let T := msg_target first in
  onTargetDiscovered m = Some h ->
  map_has T (virtualInputs m) = false ->
  Forall (fun message => msg_target message <> T) before ->
  let m0 := fst (run (map OpMessage before) m) in
  let m1 := fst (handleMIDIMessage first m0) in
  let m2 := fst (run (map OpMessage later) m1) in
  let whole := run (map OpMessage (before ++ first :: later)) m in
  exists (r : ref) (device : VirtualInput),
    created_for T m0 = created_for T m
    /\ discoveries T (snd (run (map OpMessage before) m)) = []
    /\ store m1 = store m0 ++ [device]
    /\ in_target device = T
    /\ created_for T m1 = created_for T m0 ++ [device]
    /\ map_keys (virtualInputs m1) = map_keys (virtualInputs m0) ++ [T]
    /\ map_get T (virtualInputs m1) = Some r
    /\ store m1 !! r = Some device
    /\ discoveries T (snd (handleMIDIMessage first m0))
       = [CallOnTargetDiscovered h T r]
    /\ created_for T m2 = created_for T m1
    /\ map_get T (virtualInputs m2) = Some r
    /\ discoveries T (snd (run (map OpMessage later) m1)) = []
    /\ fst whole = m2
    /\ created_for T (fst whole) = created_for T m ++ [device]
    /\ discoveries T (snd whole) = [CallOnTargetDiscovered h T r].
Proof.
  intros T Hh HT Hbefore m0 m1 m2 whole.
  destruct (earlier_messages T before m HT Hbefore) as (Hhas & Hh0 & Hc0 & Hd0).
  fold m0 in Hhas, Hh0, Hc0.
  destruct (handleMIDIMessage_new first m0 Hhas)
    as (Hin & (device & Hst & Htarget & _) & _ & Hd).
  specialize (Hd T).
  fold m1 in Hin, Hst. fold T in Hin, Htarget, Hd.
  rewrite Hh0, Hh, String.eqb_refl in Hd.
  set (r := length (store m0)) in *.
  exists r, device.
  assert (Hget : map_get T (virtualInputs m1) = Some r).
  { rewrite Hin. apply map_get_set_eq. }
  destruct (later_messages T r later m1 Hget) as (H1 & H2 & H3).
  fold m2 in H1, H2.
  assert (Hc1 : created_for T m1 = created_for T m0 ++ [device]).
  { unfold created_for. rewrite Hst, List.filter_app. cbn [List.filter].
    rewrite Htarget, String.eqb_refl. reflexivity. }
  assert (Hwhole : whole
    = (m2, snd (run (map OpMessage before) m)
           ++ snd (handleMIDIMessage first m0)
           ++ snd (run (map OpMessage later) m1))).
  { unfold whole. rewrite map_app, run_app, run_message. reflexivity. }
  split; [exact Hc0|]. split; [exact Hd0|].
  split; [exact Hst|]. split; [exact Htarget|]. split; [exact Hc1|].
  split; [rewrite Hin, map_keys_set, Hhas; reflexivity|].
  split; [exact Hget|].
  split; [rewrite Hst; apply list_lookup_middle; reflexivity|].
  split; [exact Hd|].
  split; [exact H2|]. split; [exact H1|]. split; [exact H3|].
  rewrite Hwhole. cbn [fst snd].
  split; [reflexivity|]. split; [rewrite H2, Hc1, Hc0; reflexivity|].
  rewrite !discoveries_app, Hd0, Hd, H3. reflexivity.
Qed.

(** C4 at a fresh manager with a discovery handler: 'synth' before,
    'control' first, then 'control', 'synth', 'control'. *)
Lemma first_message_discovers_target_once_witness :
  let before := [message_for "synth"] in
  let first := message_for "control" in
  let later := [message_for "control"; message_for "synth"; message_for "control"] in
  let m0 := fst (run (map OpMessage before) listening) in
  let m1 := fst (handleMIDIMessage first m0) in
  let m2 := fst (run (map OpMessage later) m1) in
  let whole := run (map OpMessage (before ++ first :: later)) listening in
  exists (r : ref) (device : VirtualInput),
    created_for "control" m0 = created_for "control" listening
    /\ discoveries "control" (snd (run (map OpMessage before) listening)) = []
    /\ store m1 = store m0 ++ [device]
    /\ in_target device = "control"
    /\ created_for "control" m1 = created_for "control" m0 ++ [device]
    /\ map_keys (virtualInputs m1) = map_keys (virtualInputs m0) ++ ["control"]
    /\ map_get "control" (virtualInputs m1) = Some r
    /\ store m1 !! r = Some device
    /\ discoveries "control" (snd (handleMIDIMessage first m0))
       = [CallOnTargetDiscovered 7 "control" r]
    /\ created_for "control" m2 = created_for "control" m1
    /\ map_get "control" (virtualInputs m2) = Some r
    /\ discoveries "control" (snd (run (map OpMessage later) m1)) = []
    /\ fst whole = m2
    /\ created_for "control" (fst whole) = created_for "control" listening ++ [device]
    /\ discoveries "control" (snd whole) = [CallOnTargetDiscovered 7 "control" r].
Proof.
  apply (first_message_discovers_target_once listening 7 [message_for "synth"]
           (message_for "control")
           [message_for "control"; message_for "synth"; message_for "control"]).
  - reflexivity.
  - reflexivity.
  - repeat constructor. discriminate.
Defined.

(** ** [createVirtualInput] called directly *)

(** C5, as stated, fails.  The host listens for discoveries; it creates
    the input for 'synth' and attaches a listener to it; a second
    [createVirtualInput('synth')] returns another object, rebinds 'synth'
    to it, so that the registry no longer holds the object with the
    listener, and calls the discovery handler once more. *)
Lemma createVirtualInput_twice_is_not_idempotent :
  let '(r1, m1, fx1) := createVirtualInput "synth" listening in
  let before := addEventListener r1 "midimessage" 9 m1 in
  let '(r2, after, fx2) := createVirtualInput "synth" before in
  r2 <> r1
  /\ virtualInputs after <> virtualInputs before
  /\ getVirtualInputs after <> getVirtualInputs before
  /\ fx2 = [CallOnTargetDiscovered 7%nat "synth" r2]
  /\ snd (handleMIDIMessage (message_for "synth") before)
     = [CallInputOnMidiMessage 9%nat r1 [144; 60; 127]%Z 1000%float "synth"]
  /\ snd (handleMIDIMessage (message_for "synth") after) = [].
Proof.
  cbn. repeat split; discriminate.
Qed.

Lemma createVirtualInput_result (target : string) (m : t) :
  let r := fst (fst (createVirtualInput target m)) in
  let m' := snd (fst (createVirtualInput target m)) in
  r = length (store m)
  /\ virtualInputs m' = map_set target r (virtualInputs m)
  /\ (exists device,
        store m' = store m ++ [device]
        /\ in_target device = target
        /\ onmidimessage device = None)
  /\ onTargetDiscovered m' = onTargetDiscovered m
  /\ snd (createVirtualInput target m)
     = match onTargetDiscovered m with
       | Some h => [CallOnTargetDiscovered h target r]
       | None => []
       end.
Proof.
  unfold createVirtualInput. cbn.
  repeat split. eexists. repeat split.
Qed.

(** C5, amended.  Every call of [createVirtualInput(target)] allocates a
    new input object without listener, binds [target] to it and returns
    it, and calls the discovery handler when one is set.  A second call
    with the same target therefore keeps the targets of the registry and
    their order, but returns a new object, rebinds the target to it and
    announces it again, while the first object stays as it was outside the
    registry.  It is [handleMIDIMessage] that creates at most once per
    target: for a registered target it leaves registry and objects alone
    and announces nothing. *)
Theorem createVirtualInput_rebinds_target (target : string) (m : t) :
  let first := createVirtualInput target m in
  let r1 := fst (fst first) in
  let m1 := snd (fst first) in
  let second := createVirtualInput target m1 in
  let r2 := fst (fst second) in
  let m2 := snd (fst second) in
  r1 = length (store m) /\ r2 = S r1
  /\ map_keys (virtualInputs m2) = map_keys (virtualInputs m1)
  /\ map_get target (virtualInputs m1) = Some r1
  /\ map_get target (virtualInputs m2) = Some r2
  /\ (exists device,
        store m2 = store m1 ++ [device]
        /\ store m2 !! r2 = Some device
        /\ in_target device = target
        /\ onmidimessage device = None)
  /\ store m2 !! r1 = store m1 !! r1
  /\ snd second
     = match onTargetDiscovered m with
       | Some h => [CallOnTargetDiscovered h target r2]
       | None => []
       end
  /\ forall message,
       msg_target message = target ->
       virtualInputs (fst (handleMIDIMessage message m1)) = virtualInputs m1
       /\ store (fst (handleMIDIMessage message m1)) = store m1
       /\ discoveries target (snd (handleMIDIMessage message m1)) = [].
Proof.
  intros first r1 m1 second r2 m2.
  destruct (createVirtualInput_result target m)
    as (Hr1 & Hin1 & (d1 & Hst1 & _) & Hh1 & _).
  destruct (createVirtualInput_result target m1)
    as (Hr2 & Hin2 & (d2 & Hst2 & Ht2 & Hl2) & _ & Hfx2).
  fold first r1 m1 in Hr1, Hin1, Hst1, Hh1.
  fold second r2 m2 in Hr2, Hin2, Hst2, Hfx2.
  assert (Hlen : r2 = S r1).
  { rewrite Hr2, Hst1, length_app, Hr1. cbn. lia. }
  split; [exact Hr1|]. split; [exact Hlen|].
  split.
  { rewrite Hin2, map_keys_set, Hin1, map_has_set, String.eqb_refl. reflexivity. }
  split; [rewrite Hin1; apply map_get_set_eq|].
  split; [rewrite Hin2; apply map_get_set_eq|].
  split.
  { exists d2. split; [exact Hst2|]. split; [|split; assumption].
    rewrite Hst2, Hr2. apply list_lookup_middle. reflexivity. }
  split.
  { rewrite Hst2. apply lookup_app_l. rewrite Hst1, length_app, Hr1. cbn. lia. }
  split; [rewrite Hfx2, Hh1; reflexivity|].
  intros message Htarget.
  destruct (handleMIDIMessage_known message m1) as (H1 & H2 & _ & H3).
  { rewrite Htarget, Hin1, map_has_set, String.eqb_refl. reflexivity. }
  rewrite H1, H2, H3. auto.
Qed.

(** C5, amended, at two calls for 'synth' on a fresh manager with a
    discovery handler. *)
Lemma createVirtualInput_rebinds_target_witness :
  let first := createVirtualInput "synth" listening in
  let m1 := snd (fst first) in
  let second := createVirtualInput "synth" m1 in
  fst (fst first) = 0%nat /\ fst (fst second) = 1%nat
  /\ map_keys (virtualInputs (snd (fst second))) = ["synth"]
  /\ snd second = [CallOnTargetDiscovered 7%nat "synth" 1%nat]
  /\ discoveries "synth" (snd (handleMIDIMessage (message_for "synth") m1)) = [].
Proof.
  destruct (createVirtualInput_rebinds_target "synth" listening)
    as (H1 & H2 & H3 & _ & _ & _ & _ & H4 & H5).
  split; [exact H1|]. split; [exact H2|]. split; [exact H3|]. split; [exact H4|].
  apply (H5 (message_for "synth")). reflexivity.
Defined.


(** * Further properties of the transport bridge *)

Lemma sendMIDItoRtpMidi_calls (self : Electron.t) (data : Uint8Array) :
  snd (Electron.sendMIDItoRtpMidi self data)
  = match Electron.rtpMidiEnabled self, Electron.rtpMidiSession self with
    | true, Some _ => [Electron.RtpSendMessage data]
    | _, _ => []
    end.
Proof.
  unfold Electron.sendMIDItoRtpMidi, Electron.try_catch.
  destruct (Electron.rtpMidiEnabled self), (Electron.rtpMidiSession self) as [session|];
    try reflexivity.
  destruct (Electron.sendMessage session data); reflexivity.
Qed.

(** [sendMIDI], origin by origin, as the calls it issues. *)
Lemma sendMIDI_calls (self : Electron.t) data ts (s : string) :
  Electron.sendMIDI self data ts (Some s)
  = (match Electron.edge (Electron.origin (Some s)) Electron.WebRTC with
     | Some k =>
         if Js.truthy (Js.prop (Electron.bridgeConfig self) k)
         then [Electron.SuperSendMIDI data ts (Electron.channel_of s)] else []
     | None => []
     end)
    ++ (match Electron.edge (Electron.origin (Some s)) Electron.RtpMidi with
        | Some k =>
            if Electron.isMain self && Electron.rtpMidiEnabled self
               && Js.truthy (Js.prop (Electron.bridgeConfig self) k)
            then snd (Electron.sendMIDItoRtpMidi self data) else []
        | None => []
        end).
Proof.
  unfold Electron.origin. change (default "default" (Some s)) with s.
  destruct (decide (s = "webrtc")) as [ -> | Hw]; [apply sendMIDI_from_webrtc|].
  destruct (decide (s = "rtpmidi")) as [ -> | Hr].
  { rewrite sendMIDI_from_rtpmidi. cbn. rewrite app_nil_r. reflexivity. }
  rewrite (sendMIDI_from_usb self data ts s Hr Hw), (source_of_usb s Hr Hw).
  reflexivity.
Qed.

(** X1 -- every send is backed by its edge, and there is at most one per
    destination.  For each call that [sendMIDI] issues, the configuration
    holds a truthy value under the edge from the message's origin to the
    call's destination; and [sendMIDI] calls [super.sendMIDI] at most once
    and the RTP-MIDI session at most once. *)
Theorem sendMIDI_follows_edges
    (self : Electron.t) (data : Uint8Array) (ts : float) (arg : option string) :
  Forall (fun e => exists k,
            Electron.edge (Electron.origin arg) (Electron.destination e) = Some k
            /\ Js.truthy (Js.prop (Electron.bridgeConfig self) k) = true)
         (Electron.sendMIDI self data ts arg)
  /\ (length (List.filter Electron.is_webrtc (Electron.sendMIDI self data ts arg)) <= 1)%nat
  /\ (length (List.filter (fun e => negb (Electron.is_webrtc e))
                (Electron.sendMIDI self data ts arg)) <= 1)%nat.
Proof.
  rewrite sendMIDI_default_argument.
  replace (Electron.origin arg) with (Electron.origin (Some (default "default" arg)))
    by (destruct arg; reflexivity).
  generalize (default "default" arg). intros s.
  rewrite sendMIDI_calls, sendMIDItoRtpMidi_calls.
  destruct (Electron.origin (Some s)); cbn [Electron.edge];
    repeat match goal with
    | |- context [Js.truthy ?v] => destruct (Js.truthy v) eqn:?
    | |- context [Electron.isMain self] => destruct (Electron.isMain self)
    | |- context [Electron.rtpMidiEnabled self] => destruct (Electron.rtpMidiEnabled self)
    | |- context [Electron.rtpMidiSession self] => destruct (Electron.rtpMidiSession self)
    end; cbn; repeat split; repeat constructor; try lia; eauto.
Qed.

(** X2 -- a truthy edge does forward.  When the edge from the origin to
    WebRTC holds a truthy value, [sendMIDI] calls [super.sendMIDI] exactly
    once, with the payload, the timestamp and the channel of the call; when
    the edge to RTP-MIDI does, in the main process with RTP-MIDI enabled
    and a session, the session is called exactly once with the payload. *)
Theorem sendMIDI_forwards_on_truthy_edge
    (self : Electron.t) (data : Uint8Array) (ts : float) (s k : string) :
  (Electron.edge (Electron.origin (Some s)) Electron.WebRTC = Some k ->
   Js.truthy (Js.prop (Electron.bridgeConfig self) k) = true ->
   List.filter Electron.is_webrtc (Electron.sendMIDI self data ts (Some s))
   = [Electron.SuperSendMIDI data ts (Electron.channel_of s)])
  /\ (Electron.edge (Electron.origin (Some s)) Electron.RtpMidi = Some k ->
      Js.truthy (Js.prop (Electron.bridgeConfig self) k) = true ->
      Electron.isMain self = true ->
      Electron.rtpMidiEnabled self = true ->
      is_Some (Electron.rtpMidiSession self) ->
      List.filter (fun e => negb (Electron.is_webrtc e))
        (Electron.sendMIDI self data ts (Some s))
      = [Electron.RtpSendMessage data]).
Proof.
  rewrite sendMIDI_calls, sendMIDItoRtpMidi_calls.
  split.
  - intros Hedge Htruthy. rewrite Hedge, Htruthy, List.filter_app.
    cbn [List.filter Electron.is_webrtc].
    destruct (Electron.edge _ Electron.RtpMidi) as [k'|]; [|reflexivity].
    destruct (_ && _); [|reflexivity].
    destruct (Electron.rtpMidiEnabled self), (Electron.rtpMidiSession self);
      reflexivity.
  - intros Hedge Htruthy Hmain Hen [session Hsession].
    rewrite Hedge, Htruthy, Hmain, Hen, Hsession, List.filter_app.
    destruct (Electron.edge _ Electron.WebRTC) as [k'|]; [|reflexivity].
    destruct (Js.truthy (Js.prop _ k')); reflexivity.
Qed.

(** X2 at a message from RTP-MIDI and at one from USB, on a bridge built
    without options whose session throws. *)
Lemma sendMIDI_forwards_on_truthy_edge_witness :
  List.filter Electron.is_webrtc
    (Electron.sendMIDI Electron.rtp_failing Electron.note_on 1000%float (Some "rtpmidi"))
  = [Electron.SuperSendMIDI Electron.note_on 1000%float "default"]
  /\ List.filter (fun e => negb (Electron.is_webrtc e))
       (Electron.sendMIDI Electron.rtp_failing Electron.note_on 1000%float (Some "synth"))
     = [Electron.RtpSendMessage Electron.note_on].
Proof.
  split.
  - apply (proj1 (sendMIDI_forwards_on_truthy_edge Electron.rtp_failing
                    Electron.note_on 1000%float "rtpmidi" "rtpMidiToWebRTC"));
      reflexivity.
  - apply (proj2 (sendMIDI_forwards_on_truthy_edge Electron.rtp_failing
                    Electron.note_on 1000%float "synth" "usbToRtpMidi"));
      try reflexivity.
    eexists. reflexivity.
Defined.

(** X3 -- WebRTC forwarding does not depend on RTP-MIDI.  The calls of
    [super.sendMIDI] that [sendMIDI] issues are the same whatever the
    process, the RTP-MIDI flag and the session are -- a session that
    throws included. *)
Theorem sendMIDI_webrtc_independent_of_rtp
    (self : Electron.t) (data : Uint8Array) (ts : float) (arg : option string)
    (is_main enabled : bool) (session : option Electron.RtpSession) :
  List.filter Electron.is_webrtc
    (Electron.sendMIDI
       {| Electron.isMain := is_main;
          Electron.rtpMidiSession := session;
          Electron.rtpMidiEnabled := enabled;
          Electron.bridgeConfig := Electron.bridgeConfig self |} data ts arg)
  = List.filter Electron.is_webrtc (Electron.sendMIDI self data ts arg).
Proof.
  rewrite !(sendMIDI_default_argument _ data ts arg).
  generalize (default "default" arg). intros s.
  rewrite !sendMIDI_calls, !sendMIDItoRtpMidi_calls, !List.filter_app.
  cbn [Electron.bridgeConfig Electron.isMain Electron.rtpMidiEnabled
       Electron.rtpMidiSession].
  f_equal.
  destruct (Electron.edge _ Electron.RtpMidi) as [k|]; [|reflexivity].
  transitivity (@nil Electron.effect).
  - destruct (_ && _); [|reflexivity]. destruct enabled, session; reflexivity.
  - destruct (_ && _); [|reflexivity].
    destruct (Electron.rtpMidiEnabled self), (Electron.rtpMidiSession self);
      reflexivity.
Qed.

(** X4 -- [close()] silences RTP-MIDI and nothing else.  After [close()],
    [sendMIDI] issues exactly the WebRTC calls it issued before and no
    call to the RTP-MIDI session; [sendMIDItoRtpMidi] answers [false]
    without a call; closing twice is closing once. *)
Theorem close_silences_rtp
    (self : Electron.t) (data : Uint8Array) (ts : float) (arg : option string) :
  Electron.sendMIDI (Electron.close self) data ts arg
    = List.filter Electron.is_webrtc (Electron.sendMIDI self data ts arg)
  /\ Electron.sendMIDItoRtpMidi (Electron.close self) data = (Js.Return false, [])
  /\ Electron.close (Electron.close self) = Electron.close self.
Proof.
  split; [|split].
  - rewrite !(sendMIDI_default_argument _ data ts arg).
    generalize (default "default" arg). intros s.
    rewrite !sendMIDI_calls, !sendMIDItoRtpMidi_calls, List.filter_app.
    assert (Hcfg : Electron.bridgeConfig (Electron.close self)
                   = Electron.bridgeConfig self).
    { unfold Electron.close. destruct (Electron.rtpMidiSession self); reflexivity. }
    rewrite Hcfg. f_equal.
    + destruct (Electron.edge _ Electron.WebRTC) as [k|]; [|reflexivity].
      destruct (Js.truthy _); reflexivity.
    + destruct (Electron.edge _ Electron.RtpMidi) as [k|]; [|reflexivity].
      transitivity (@nil Electron.effect).
      * unfold Electron.close.
        destruct (Electron.rtpMidiSession self) eqn:Hs; cbn.
        -- rewrite andb_false_r. reflexivity.
        -- rewrite Hs. destruct (_ && _); [|reflexivity].
           destruct (Electron.rtpMidiEnabled self); reflexivity.
      * destruct (_ && _); [|reflexivity].
        destruct (Electron.rtpMidiEnabled self), (Electron.rtpMidiSession self);
          reflexivity.
  - unfold Electron.close, Electron.sendMIDItoRtpMidi.
    destruct (Electron.rtpMidiSession self) eqn:Hs; cbn; [reflexivity|].
    rewrite Hs. destruct (Electron.rtpMidiEnabled self); reflexivity.
  - unfold Electron.close.
    destruct (Electron.rtpMidiSession self) eqn:Hs; cbn; [reflexivity|].
    rewrite Hs. reflexivity.
Qed.

(** ** RTP-MIDI set-up *)

(** X5 -- options given to [connectRtpMidi] win over the defaults.  Every
    property present in [options] reaches [createSession] unchanged, a
    falsy one such as [port: 0] included, since [options] is spread after
    the defaulted properties; 'localName', 'bonjourName' and 'port' get
    'MIDI-RTC', 'MIDI-RTC' and 5004 only when [options] lacks them; and
    nothing else is added. *)
Theorem sessionOptions_given_options_win (options : gmap string Js.value) :
  (forall k v, options !! k = Some v ->
     Electron.sessionOptions options !! k = Some v)
  /\ (options !! "localName" = None ->
      Electron.sessionOptions options !! "localName" = Some (Js.Str "MIDI-RTC"))
  /\ (options !! "bonjourName" = None ->
      Electron.sessionOptions options !! "bonjourName" = Some (Js.Str "MIDI-RTC"))
  /\ (options !! "port" = None ->
      Electron.sessionOptions options !! "port" = Some (Js.Num 5004%float))
  /\ dom (Electron.sessionOptions options)
     = dom options ∪ {[ "localName"; "bonjourName"; "port" ]}.
Proof.
  unfold Electron.sessionOptions.
  split; [intros k v H; apply lookup_union_Some_l, H|].
  repeat split.
  1-3: intros H; rewrite lookup_union_r by exact H;
       unfold Js.prop; rewrite H; simplify_map_eq; reflexivity.
  rewrite dom_union_L, !dom_insert_L, dom_singleton_L. set_solver.
Qed.

(** X5 at [{ port: 0 }]: the port stays 0, the names are defaulted. *)
Lemma sessionOptions_given_options_win_witness :
  let options : gmap string Js.value := {[ "port" := Js.Num 0%float ]} in
  Electron.sessionOptions options !! "port" = Some (Js.Num 0%float)
  /\ Electron.sessionOptions options !! "localName" = Some (Js.Str "MIDI-RTC")
  /\ Electron.sessionOptions options !! "bonjourName" = Some (Js.Str "MIDI-RTC").
Proof.
  intros options.
  destruct (sessionOptions_given_options_win options) as (H1 & H2 & H3 & _).
  split; [apply H1; reflexivity|].
  split; [apply H2; reflexivity | apply H3; reflexivity].
Defined.

(** X6 -- what the answer of [connectRtpMidi] means.  In the renderer it
    answers [false] and touches nothing.  An answer [true] is given in the
    main process only, and from then on [sendMIDItoRtpMidi] calls the
    session with the payload.  An answer [false] leaves the RTP-MIDI flag
    as it was.  The bridge configuration is never touched. *)
Theorem connectRtpMidi_answer
    (library : option (gmap string Js.value -> Js.completion Electron.RtpSession))
    (listen : Electron.RtpSession -> Js.completion unit)
    (options : gmap string Js.value) (self : Electron.t) (data : Uint8Array) :
  let answer := fst (Electron.connectRtpMidi library listen options self) in
  let self' := snd (Electron.connectRtpMidi library listen options self) in
  (Electron.isMain self = false -> answer = false /\ self' = self)
  /\ (answer = true ->
      Electron.isMain self = true
      /\ Electron.rtpMidiEnabled self' = true
      /\ snd (Electron.sendMIDItoRtpMidi self' data) = [Electron.RtpSendMessage data])
  /\ (answer = false ->
      Electron.rtpMidiEnabled self' = Electron.rtpMidiEnabled self)
  /\ Electron.bridgeConfig self' = Electron.bridgeConfig self
  /\ Electron.isMain self' = Electron.isMain self.
Proof.
  cbv zeta. unfold Electron.connectRtpMidi.
  destruct (Electron.isMain self) eqn:Hmain; cbn [negb].
  2: { cbn [fst snd]. repeat split; try discriminate; exact Hmain. }
  destruct library as [createSession|].
  2: { cbn [fst snd]. repeat split; try discriminate; exact Hmain. }
  destruct (createSession _) as [session|err].
  2: { cbn [fst snd]. repeat split; try discriminate; exact Hmain. }
  destruct (listen session) as [[]|err]; cbn [fst snd].
  - split; [discriminate|]. split; [|split; [discriminate|split; reflexivity]].
    intros _. split; [reflexivity|]. split; [reflexivity|].
    rewrite sendMIDItoRtpMidi_calls. reflexivity.
  - repeat split; try discriminate.
Qed.

(** X6 in the main process with a library that works, and in the
    renderer. *)
Lemma connectRtpMidi_answer_witness :
  let library := Some (fun _ : gmap string Js.value =>
                         Js.Return {| Electron.sendMessage := fun _ => Js.Return tt |}) in
  let listen := fun _ : Electron.RtpSession => Js.Return tt in
  let main := Electron.constructor true Electron.no_options in
  let renderer := Electron.constructor false Electron.no_options in
  snd (Electron.sendMIDItoRtpMidi
         (snd (Electron.connectRtpMidi library listen ∅ main)) Electron.note_on)
    = [Electron.RtpSendMessage Electron.note_on]
  /\ Electron.connectRtpMidi library listen ∅ renderer = (false, renderer)
  /\ Electron.rtpMidiEnabled (snd (Electron.connectRtpMidi None listen ∅ main)) = false.
Proof.
  intros library listen main renderer.
  split; [|split].
  - apply (connectRtpMidi_answer library listen ∅ main Electron.note_on).
    reflexivity.
  - destruct (connectRtpMidi_answer library listen ∅ renderer Electron.note_on)
      as (H & _).
    destruct H as [H1 H2]; [reflexivity|].
    destruct (Electron.connectRtpMidi library listen ∅ renderer) as [a s'].
    cbn [fst snd] in H1, H2. rewrite H1, H2. reflexivity.
  - destruct (connectRtpMidi_answer None listen ∅ main Electron.note_on)
      as (_ & _ & H & _).
    apply H. reflexivity.
Defined.

(** ** Channels of hardware devices *)

Section ChannelFacts.
Variable toLowerCase : string -> string.

Lemma includes_empty (s : string) : Electron.includes s "" = true.
Proof. destruct s; reflexivity. Qed.

Lemma builtin_channel_cases (deviceName : string) :
  let channel := Electron.getChannelForDevice toLowerCase None deviceName in
  channel = "synth" \/ channel = "control" \/ channel = "clock" \/ channel = "default".
Proof.
  unfold Electron.getChannelForDevice. cbv zeta.
  destruct (_ || _); [auto|]. destruct (_ || _); [auto|].
  destruct (_ || _); auto.
Qed.

(** X7 -- without a channel mapping, hardware keeps its origin.  The
    built-in mapping yields 'synth', 'control', 'clock' or 'default',
    never a source tag: a message from an input that was there at start-up
    is a USB message, and what [sendMIDI] issues for it is what it issues
    for the same message from a hot-plugged input, where only the target
    differs -- the hot-plugged input always sends to 'default'. *)
Theorem builtin_channels_keep_usb_origin
    (self : Electron.t) (deviceName : string) (data : Uint8Array) (ts : float) :
  let channel := Electron.getChannelForDevice toLowerCase None deviceName in
  channel ∈ ["synth"; "control"; "clock"; "default"]
  /\ Electron.isSource channel = false
  /\ Electron.origin (Some channel) = Electron.USB
  /\ Electron.webmidi_input_onmidimessage toLowerCase None self deviceName data ts
     = map (Electron.retarget channel)
           (Electron.webmidi_hotplug_onmidimessage self data ts)
  /\ Forall (fun e => Electron.target_tag e = None
                      \/ Electron.target_tag e = Some "default")
            (Electron.webmidi_hotplug_onmidimessage self data ts).
Proof.
  intros channel.
  assert (Hc : channel = "synth" \/ channel = "control" \/ channel = "clock"
               \/ channel = "default") by apply builtin_channel_cases.
  assert (Hne : channel <> "usb" /\ channel <> "rtpmidi" /\ channel <> "webrtc").
  { destruct Hc as [ -> | [ -> | [ -> | -> ] ] ]; repeat split; discriminate. }
  destruct Hne as (Hu & Hr & Hw).
  assert (Hsrc : Electron.isSource channel = false).
  { destruct (isSource_cases channel) as [ [ _ [ H | [ H | H ] ] ] | [ H _ ] ];
      congruence. }
  split.
  { rewrite !elem_of_cons. tauto. }
  split; [exact Hsrc|]. split.
  { unfold Electron.origin. change (default "default" (Some channel)) with channel.
    rewrite (source_of_usb channel Hr Hw). reflexivity. }
  unfold Electron.webmidi_input_onmidimessage, Electron.webmidi_hotplug_onmidimessage.
  fold channel. cbv zeta.
  pose proof (sendMIDItoRtpMidi_destination self data) as Hrtp.
  rewrite (sendMIDI_from_usb self data ts channel Hr Hw).
  rewrite (sendMIDI_from_usb self data ts "usb") by discriminate.
  split.
  - unfold Electron.channel_of at 1. rewrite Hsrc, map_app. f_equal.
    + destruct (Js.truthy _); reflexivity.
    + destruct (_ && _); [|reflexivity].
      symmetry. apply map_retarget_rtp, Hrtp.
  - apply Forall_app. split.
    + destruct (Js.truthy _); [|constructor].
      constructor; [right; reflexivity | constructor].
    + destruct (_ && _); [|constructor].
      apply Forall_retarget; [exact Hrtp|]. intros m. now left.
Qed.

(** X8 -- the built-in patterns come before the custom mapping.  A name
    that a built-in pattern matches gets the built-in channel whatever
    [channelMapping] says; any other name gets the channel of the first
    entry of the mapping whose lower-cased pattern it contains, and
    'default' when there is none.  An empty pattern is contained in every
    name. *)
Theorem builtin_patterns_precede_mapping
    (entries : list (string * string)) (deviceName : string) :
  let builtin := Electron.getChannelForDevice toLowerCase None deviceName in
  let mapped := Electron.getChannelForDevice toLowerCase (Some entries) deviceName in
  (builtin <> "default" -> mapped = builtin)
  /\ (builtin = "default" ->
      mapped = match find (fun entry =>
                             Electron.includes (toLowerCase deviceName)
                               (toLowerCase (fst entry))) entries with
               | Some entry => snd entry
               | None => "default"
               end)
  /\ (builtin = "default" -> toLowerCase "" = "" ->
      forall channel rest, entries = ("", channel) :: rest -> mapped = channel).
Proof.
  cbv zeta. unfold Electron.getChannelForDevice. cbv zeta.
  destruct (_ || _); [repeat split; try discriminate; congruence|].
  destruct (_ || _); [repeat split; try discriminate; congruence|].
  destruct (_ || _); [repeat split; try discriminate; congruence|].
  split; [congruence|]. split; [reflexivity|].
  intros _ Hempty channel rest ->. cbn [find fst snd].
  rewrite Hempty, includes_empty. reflexivity.
Qed.

(** X9 -- a channel mapping can change the origin.  When the mapping
    sends a device to 'webrtc', its messages are taken for messages from
    WebRTC and nothing of them goes out over WebRTC, whatever the edge
    usbToWebRTC says; when it sends a device to 'rtpmidi', nothing goes to
    the RTP-MIDI session; and in both cases, as for 'usb', the name is not
    used as a target. *)
Theorem mapped_source_tag_changes_origin
    (channelMapping : option (list (string * string))) (self : Electron.t)
    (deviceName : string) (data : Uint8Array) (ts : float) :
  let channel := Electron.getChannelForDevice toLowerCase channelMapping deviceName in
  let sent := Electron.webmidi_input_onmidimessage toLowerCase channelMapping self
                deviceName data ts in
  (channel = "webrtc" ->
   Forall (fun e => Electron.destination e <> Electron.WebRTC) sent)
  /\ (channel = "rtpmidi" ->
      Forall (fun e => Electron.destination e <> Electron.RtpMidi) sent)
  /\ (channel ∈ Electron.source_tags ->
      Forall (fun e => Electron.target_tag e <> Some channel) sent).
Proof.
  intros channel sent. unfold sent, Electron.webmidi_input_onmidimessage.
  fold channel. cbv zeta.
  pose proof (sendMIDItoRtpMidi_destination self data) as Hrtp.
  split; [|split].
  - intros ->. apply (sendMIDI_destinations self data ts "webrtc").
  - intros ->. apply (sendMIDI_destinations self data ts "rtpmidi").
  - intros Hs. unfold Electron.source_tags in Hs.
    rewrite !elem_of_cons in Hs. rewrite elem_of_nil in Hs.
    destruct Hs as [ -> | [ -> | [ -> | [] ] ] ].
    + rewrite sendMIDI_from_usb by discriminate.
      apply Forall_app. split.
      * destruct (Js.truthy _); repeat constructor. discriminate.
      * destruct (_ && _); [|constructor].
        apply Forall_retarget; [exact Hrtp|]. intros m. discriminate.
    + rewrite sendMIDI_from_rtpmidi.
      destruct (Js.truthy _); repeat constructor. discriminate.
    + rewrite sendMIDI_from_webrtc.
      destruct (_ && _); [|constructor].
      apply Forall_retarget; [exact Hrtp|]. intros m. discriminate.
Qed.

End ChannelFacts.

(** X8 at 'Akai APC40' and 'Drum Pad' under a mapping of 'pad' and of
    the empty pattern. *)
Lemma builtin_patterns_precede_mapping_witness :
  Electron.getChannelForDevice Electron.ascii_toLowerCase
    (Some [("pad", "drums"); ("", "rest")]) "Akai APC40" = "control"
  /\ Electron.getChannelForDevice Electron.ascii_toLowerCase
       (Some [("PAD", "drums"); ("", "rest")]) "Drum Pad" = "drums"
  /\ Electron.getChannelForDevice Electron.ascii_toLowerCase
       (Some [("", "rest"); ("pad", "drums")]) "Drum Pad" = "rest".
Proof.
  split; [|split].
  - apply (proj1 (builtin_patterns_precede_mapping Electron.ascii_toLowerCase
                    [("pad", "drums"); ("", "rest")] "Akai APC40")).
    discriminate.
  - apply (proj1 (proj2 (builtin_patterns_precede_mapping Electron.ascii_toLowerCase
                    [("PAD", "drums"); ("", "rest")] "Drum Pad"))).
    reflexivity.
  - apply (proj2 (proj2 (builtin_patterns_precede_mapping Electron.ascii_toLowerCase
                    [("", "rest"); ("pad", "drums")] "Drum Pad")))
      with (rest := [("pad", "drums")]); reflexivity.
Defined.

(** X9 at a device that the mapping sends to 'webrtc', on a bridge whose
    edge usbToWebRTC is true. *)
Lemma mapped_source_tag_changes_origin_witness :
  let mapping := Some [("pad", "webrtc")] in
  Electron.bridgeConfig Electron.usb_only_webrtc !! "usbToWebRTC" = Some (Js.Bool true)
  /\ Forall (fun e => Electron.destination e <> Electron.WebRTC)
       (Electron.webmidi_input_onmidimessage Electron.ascii_toLowerCase mapping
          Electron.usb_only_webrtc "Drum Pad" Electron.note_on 1000%float)
  /\ Forall (fun e => Electron.target_tag e <> Some "webrtc")
       (Electron.webmidi_input_onmidimessage Electron.ascii_toLowerCase mapping
          Electron.usb_only_webrtc "Drum Pad" Electron.note_on 1000%float).
Proof.
  intros mapping.
  destruct (mapped_source_tag_changes_origin Electron.ascii_toLowerCase mapping
              Electron.usb_only_webrtc "Drum Pad" Electron.note_on 1000%float)
    as (H1 & _ & H3).
  split; [reflexivity|]. split; [apply H1; reflexivity|].
  apply H3. unfold Electron.source_tags. rewrite !elem_of_cons. auto.
Defined.


(** * Further properties of the manager *)

(** ** The registry stays in order *)

Section JsMapOrder.
Context {V : Type}.
Implicit Types (m : JsMap V) (k : string) (v : V).

Lemma map_has_keys k m : map_has k m = true <-> k ∈ map_keys m.
Proof.
  unfold map_has, map_keys. induction m as [|[k0 v0] m IH]; cbn.
  - split; [discriminate | intros H; inversion H].
  - rewrite elem_of_cons, orb_true_iff, IH.
    destruct (String.eqb_spec k k0); intuition congruence.
Qed.

Lemma NoDup_map_keys_set k v m :
  NoDup (map_keys m) -> NoDup (map_keys (map_set k v m)).
Proof.
  intros H. rewrite map_keys_set.
  destruct (map_has k m) eqn:Hhas; [exact H|].
  apply NoDup_app. split; [exact H|]. split; [|apply NoDup_singleton].
  intros x Hx Hk. apply list_elem_of_singleton in Hk. subst x.
  apply map_has_keys in Hx. congruence.
Qed.

Lemma Forall_map_set (P : string * V -> Prop) k v m :
  Forall P m -> P (k, v) -> Forall P (map_set k v m).
Proof.
  intros H Hkv. induction H as [|[k0 v0] m H0 H IH]; cbn.
  - repeat constructor. exact Hkv.
  - destruct (String.eqb k k0); constructor; assumption.
Qed.

Lemma map_get_elem_of k v m : map_get k m = Some v -> (k, v) ∈ m.
Proof.
  induction m as [|[k0 v0] m IH]; cbn; [discriminate|].
  destruct (String.eqb_spec k k0) as [ -> | Hne].
  - intros [= ->]. apply list_elem_of_here.
  - intros H. apply list_elem_of_further, IH, H.
Qed.

End JsMapOrder.

Lemma registry_store_grows inputs outputs objects (v : VirtualInput) :
  registry_parts_ok inputs outputs objects ->
  registry_parts_ok inputs outputs (objects ++ [v]).
Proof.
  intros (H1 & H2 & H3 & H4). repeat split; try assumption.
  eapply Forall_impl; [exact H3|]. intros entry (w & Hw & Hfor).
  exists w. split; [apply lookup_app_l_Some, Hw | exact Hfor].
Qed.

Lemma registry_set_input inputs outputs objects (target : string) (v : VirtualInput) :
  input_for target v ->
  registry_parts_ok inputs outputs objects ->
  registry_parts_ok (map_set target (length objects) inputs) outputs (objects ++ [v]).
Proof.
  intros Hv H. apply (registry_store_grows _ _ _ v) in H.
  destruct H as (H1 & H2 & H3 & H4). repeat split; try assumption.
  - apply NoDup_map_keys_set, H1.
  - apply Forall_map_set; [exact H3|]. exists v. split; [|exact Hv].
    apply list_lookup_middle. reflexivity.
Qed.

Lemma registry_set_output inputs outputs objects (target : string) :
  registry_parts_ok inputs outputs objects ->
  registry_parts_ok inputs
    (map_set target (fst (createVirtualOutput target constructor)) outputs) objects.
Proof.
  intros (H1 & H2 & H3 & H4). repeat split; try assumption.
  - apply NoDup_map_keys_set, H2.
  - apply Forall_map_set; [exact H4 | reflexivity].
Qed.

Lemma registry_clear_inputs inputs outputs objects :
  registry_parts_ok inputs outputs objects ->
  registry_parts_ok [] outputs objects /\ registry_parts_ok [] [] objects.
Proof.
  intros (H1 & H2 & H3 & H4).
  split; repeat split; try assumption; constructor.
Qed.

Lemma registry_alter inputs outputs objects (h : option handler) (r : ref) :
  registry_parts_ok inputs outputs objects ->
  registry_parts_ok inputs outputs (alter (input_set_onmidimessage h) r objects).
Proof.
  intros (H1 & H2 & H3 & H4). repeat split; try assumption.
  eapply Forall_impl; [exact H3|]. intros entry (w & Hw & Hfor).
  destruct (decide (r = snd entry)) as [ -> | Hne].
  - exists (input_set_onmidimessage h w). split.
    + unfold ref in *. rewrite list_lookup_alter_eq, Hw. reflexivity.
    + exact Hfor.
  - exists w. split; [|exact Hfor]. unfold ref in *.
    rewrite list_lookup_alter_ne by exact Hne. exact Hw.
Qed.

Lemma createVirtualInput_registry_ok (target : string) (m : t) :
  registry_ok m -> registry_ok (snd (fst (createVirtualInput target m))).
Proof.
  intros H. unfold registry_ok, createVirtualInput. cbn.
  apply registry_set_input; [|exact H]. repeat split.
Qed.

Lemma createVirtualOutput_registry_ok (target : string) (m : t) :
  registry_ok m -> registry_ok (snd (createVirtualOutput target m)).
Proof.
  intros H. unfold registry_ok, createVirtualOutput. cbn.
  apply (registry_set_output _ _ _ target), H.
Qed.

Lemma handleMIDIMessage_registry_ok (message : Message) (m : t) :
  registry_ok m -> registry_ok (fst (handleMIDIMessage message m)).
Proof.
  intros H. unfold handleMIDIMessage.
  destruct (negb _); [|exact H].
  apply (createVirtualInput_registry_ok (msg_target message)
           (with_stats (count_message message (stats m)) m)), H.
Qed.

Lemma handleConnectionStateChange_registry_ok (state : string) (m : t) :
  registry_ok m -> registry_ok (fst (handleConnectionStateChange state m)).
Proof.
  intros H. unfold handleConnectionStateChange, registry_ok.
  destruct (String.eqb state "connected"), (_ || _); cbn.
  - apply (proj2 (registry_clear_inputs (virtualInputs m) (virtualOutputs m) _ H)).
  - repeat apply registry_set_output. exact H.
  - apply (proj2 (registry_clear_inputs (virtualInputs m) (virtualOutputs m) _ H)).
  - exact H.
Qed.

Lemma deliver_reports_registry_ok (reports : list string) (m : t) (fx : list effect) :
  registry_ok m ->
  registry_ok (fst (fold_left
    (fun acc state =>
       let '(m', fx') := handleConnectionStateChange state (fst acc) in
       (m', snd acc ++ fx'))
    reports (m, fx))).
Proof.
  revert m fx. induction reports as [|state reports IH]; intros m fx H; [exact H|].
  cbn [fold_left fst snd].
  pose proof (handleConnectionStateChange_registry_ok state m H) as H'.
  destruct (handleConnectionStateChange state m) as [m' fx']. apply IH, H'.
Qed.

Lemma disconnect_reporting_registry_ok (reports : list string) (m : t) :
  registry_ok m -> registry_ok (fst (disconnect_reporting reports m)).
Proof.
  intros H. unfold disconnect_reporting.
  destruct (connection m).
  - pose proof (deliver_reports_registry_ok reports m [] H) as H'.
    unfold deliver_reports. destruct (fold_left _ reports (m, [])) as [m' fx'].
    apply (proj1 (registry_clear_inputs _ _ _ H')).
  - apply (proj1 (registry_clear_inputs _ _ _ H)).
Qed.

Lemma step_registry_ok (op : Op) (m : t) :
  registry_ok m -> registry_ok (fst (step op m)).
Proof.
  intros H. destruct op; cbn [step fst]; try exact H.
  - apply handleMIDIMessage_registry_ok, H.
  - apply handleConnectionStateChange_registry_ok, H.
  - apply disconnect_reporting_registry_ok, H.
  - unfold addEventListener. destruct (String.eqb _ _); [|exact H].
    apply registry_alter, H.
  - unfold removeEventListener. destruct (String.eqb _ _); [|exact H].
    apply registry_alter, H.
  - destruct (connection m); exact H.
Qed.

Lemma api_step_registry_ok (call : Api) (m : t) :
  registry_ok m -> registry_ok (fst (api_step call m)).
Proof.
  intros H. destruct call as [op|target|target]; cbn [api_step].
  - apply step_registry_ok, H.
  - pose proof (createVirtualInput_registry_ok target m H) as H'.
    destruct (createVirtualInput target m) as [[r m'] fx]. exact H'.
  - apply createVirtualOutput_registry_ok, H.
Qed.

Lemma api_run_invariant (P : t -> Prop) (calls : list Api) (m : t) :
  (forall call m, P m -> P (fst (api_step call m))) ->
  P m -> P (fst (api_run calls m)).
Proof.
  intros Hstep. revert m. induction calls as [|call calls IH]; intros m H; [exact H|].
  cbn [api_run]. pose proof (Hstep call m H) as H1.
  destruct (api_step call m) as [m1 fx1].
  specialize (IH m1 H1). destruct (api_run calls m1) as [m2 fx2]. exact IH.
Qed.

Lemma constructor_registry_ok : registry_ok constructor.
Proof. repeat split; constructor. Qed.

Lemma registry_ok_inputs (m : t) :
  registry_ok m ->
  Forall2 (fun target v => input_for target v)
          (map_keys (virtualInputs m)) (getVirtualInputs m).
Proof.
  intros (_ & _ & H & _). unfold getVirtualInputs, map_values, map_keys.
  induction H as [|[k r] inputs (v & Hv & Hfor) _ IH]; cbn; [constructor|].
  cbn in Hv. rewrite Hv. constructor; assumption.
Qed.

(** X10 -- one virtual input per target.  Whatever is called on a manager
    after its construction, direct calls of [createVirtualInput] included:
    the targets that [getStats()] lists are all different and as many as
    it counts, [getVirtualInputs()] returns one object per listed target,
    in the same order, and the object for a target T has target T, id
    'webrtc-midi-T', name 'WebRTC MIDI (T)' and manufacturer 'WebRTC';
    [getVirtualInput(T)] is that object. *)
Theorem registry_has_one_input_per_target (calls : list Api) :
  let m := fst (api_run calls constructor) in
  NoDup (getStats_targets m)
  /\ length (getStats_targets m) = getStats_virtualInputs m
  /\ length (getVirtualInputs m) = getStats_virtualInputs m
  /\ map in_target (getVirtualInputs m) = getStats_targets m
  /\ map in_id (getVirtualInputs m)
     = map (fun target => ("webrtc-midi-" ++ target)%string) (getStats_targets m)
  /\ Forall2 input_for (getStats_targets m) (getVirtualInputs m)
  /\ forall target r,
       getVirtualInput target m = Some r ->
       exists v, store m !! r = Some v /\ input_for target v /\ v ∈ getVirtualInputs m.
Proof.
  intros m.
  assert (H : registry_ok m).
  { apply api_run_invariant; [apply api_step_registry_ok | apply constructor_registry_ok]. }
  pose proof (registry_ok_inputs m H) as H2.
  unfold getStats_targets, getStats_virtualInputs in *.
  split; [apply H|]. split; [apply length_map|].
  split.
  { rewrite <- (Forall2_length _ _ _ H2). apply length_map. }
  split.
  { induction H2 as [|k v ks vs Hkv _ IH]; cbn; [reflexivity|].
    rewrite IH. destruct Hkv as (-> & _). reflexivity. }
  split.
  { induction H2 as [|k v ks vs Hkv _ IH]; cbn; [reflexivity|].
    rewrite IH. destruct Hkv as (_ & -> & _). reflexivity. }
  split; [exact H2|].
  intros target r Hget. unfold getVirtualInput in Hget.
  apply map_get_elem_of in Hget.
  destruct H as (_ & _ & H & _). rewrite Forall_forall in H.
  destruct (H _ Hget) as (v & Hv & Hfor). exists v.
  split; [exact Hv|]. split; [exact Hfor|].
  unfold getVirtualInputs, map_values. apply list_elem_of_omap.
  exists r. split; [|exact Hv].
  apply list_elem_of_In, in_map_iff. exists (target, r).
  split; [reflexivity | apply list_elem_of_In, Hget].
Qed.

Lemma registry_ok_outputs (m : t) :
  registry_ok m -> map out_target (getVirtualOutputs m) = map_keys (virtualOutputs m).
Proof.
  intros (_ & _ & _ & H). unfold getVirtualOutputs, map_values, map_keys.
  induction H as [|[k o] outputs Hko _ IH]; cbn; [reflexivity|].
  rewrite IH. cbn in Hko. rewrite Hko. reflexivity.
Qed.

(** X11 -- one virtual output per target, bound to it.  Whatever is
    called on a manager after its construction, direct calls of
    [createVirtualOutput] included: no target has two outputs; the output
    that [getVirtualOutput(T)] returns has target T and id
    'webrtc-midi-out-T'; and its [send(data, timestamp)] does what
    [sendMIDI(data, timestamp, T)] does. *)
Theorem registry_has_one_output_per_target (calls : list Api) :
  let m := fst (api_run calls constructor) in
  NoDup (map_keys (virtualOutputs m))
  /\ map out_target (getVirtualOutputs m) = map_keys (virtualOutputs m)
  /\ forall target o,
       getVirtualOutput target m = Some o ->
       out_target o = target
       /\ out_id o = ("webrtc-midi-out-" ++ target)%string
       /\ forall data timestamp now m',
            output_send o data timestamp now m'
            = snd (sendMIDI data timestamp (Some target) now m').
Proof.
  intros m.
  assert (H : registry_ok m).
  { apply api_run_invariant; [apply api_step_registry_ok | apply constructor_registry_ok]. }
  split; [apply H|]. split; [apply registry_ok_outputs, H|].
  intros target o Hget. unfold getVirtualOutput in Hget.
  apply map_get_elem_of in Hget.
  destruct H as (_ & _ & _ & H). rewrite Forall_forall in H.
  specialize (H _ Hget). cbn in H. subst o.
  repeat split.
Qed.

(** X11 at the 'synth' output of a connected manager. *)
Lemma registry_has_one_output_per_target_witness :
  let m := fst (api_run [ApiOp OpInitialize; ApiOp (OpStateChange "connected");
                         ApiOp (OpConnectionIsConnected true)] constructor) in
  exists o, getVirtualOutput "synth" m = Some o
    /\ out_target o = "synth"
    /\ output_send o (Numbers [144; 60; 127]%Z) None 5%float m
       = [ConnectionSendMIDI [144; 60; 127]%Z 5%float "synth"].
Proof.
  intros m. eexists. split; [reflexivity|].
  destruct (registry_has_one_output_per_target
              [ApiOp OpInitialize; ApiOp (OpStateChange "connected");
               ApiOp (OpConnectionIsConnected true)]) as (_ & _ & H).
  destruct (H "synth" _ eq_refl) as (H1 & _ & H3).
  split; [exact H1|]. rewrite H3. reflexivity.
Defined.

(** ** Connection state *)

Lemma step_isConnected (op : Op) (m : t) :
  isConnected m = String.eqb (connectionState m) "connected" ->
  isConnected (fst (step op m))
  = String.eqb (connectionState (fst (step op m))) "connected".
Proof.
  intros H. destruct op; cbn [step fst]; try exact H.
  - unfold handleMIDIMessage. destruct (negb _); exact H.
  - unfold handleConnectionStateChange.
    destruct (String.eqb state "connected") eqn:E, (_ || _); cbn;
      rewrite E; reflexivity.
  - unfold disconnect, disconnect_reporting.
    destruct (connection m); [destruct (deliver_reports _ m)|]; reflexivity.
  - unfold addEventListener. destruct (String.eqb event "midimessage"); exact H.
  - unfold removeEventListener. destruct (String.eqb event "midimessage"); exact H.
  - destruct (connection m); exact H.
Qed.

(** X12 -- the flag and the state agree.  Whatever is called on a manager
    after its construction, [isConnected] is true exactly when
    [connectionState] is 'connected'; and when the getter [connected] is
    true, [sendMIDI] sends and returns [true]. *)
Theorem isConnected_follows_connectionState
    (calls : list Api) (data : MidiData) (timestamp : option float)
    (target : option string) (now : float) :
  let m := fst (api_run calls constructor) in
  isConnected m = String.eqb (connectionState m) "connected"
  /\ (connected m = true ->
      connectionState m = "connected"
      /\ sendMIDI data timestamp target now m
         = (true, [ConnectionSendMIDI (toUint8Array data)
                     (timestamp_or timestamp now) (default "default" target)])).
Proof.
  intros m.
  assert (H : isConnected m = String.eqb (connectionState m) "connected").
  { apply (api_run_invariant
             (fun m => isConnected m = String.eqb (connectionState m) "connected"));
      [|reflexivity].
    intros [op|t|t] m0 H0; cbn [api_step].
    - apply step_isConnected, H0.
    - destruct (createVirtualInput t m0) as [[r m1] fx] eqn:E.
      unfold createVirtualInput in E. injection E as _ <- _. exact H0.
    - exact H0. }
  split; [exact H|].
  unfold connected, sendMIDI. intros Hc. apply andb_true_iff in Hc.
  destruct Hc as [Hc1 Hc2]. rewrite Hc1 in H. symmetry in H.
  apply String.eqb_eq in H. split; [exact H|].
  destruct (connection m) as [c|]; [|discriminate]. rewrite Hc2. reflexivity.
Qed.

(** X12 at a manager whose connection is up and has reported it. *)
Lemma isConnected_follows_connectionState_witness :
  let m := fst (api_run [ApiOp OpInitialize; ApiOp (OpConnectionIsConnected true);
                         ApiOp (OpStateChange "connected")] constructor) in
  connectionState m = "connected"
  /\ sendMIDI (Bytes [144; 60; 127]%Z) (Some 7%float) None 5%float m
     = (true, [ConnectionSendMIDI [144; 60; 127]%Z 7%float "default"]).
Proof.
  intros m.
  apply (isConnected_follows_connectionState
           [ApiOp OpInitialize; ApiOp (OpConnectionIsConnected true);
            ApiOp (OpStateChange "connected")]
           (Bytes [144; 60; 127]%Z) (Some 7%float) None 5%float).
  reflexivity.
Defined.

(** X10 at a manager that received a message for 'synth' and then had
    [createVirtualInput('synth')] called on it. *)
Lemma registry_has_one_input_per_target_witness :
  let m := fst (api_run [ApiOp (OpMessage (message_for "synth"));
                         ApiCreateVirtualInput "synth"] constructor) in
  getStats_targets m = ["synth"]
  /\ exists v, store m !! 1%nat = Some v /\ input_for "synth" v
               /\ v ∈ getVirtualInputs m.
Proof.
  intros m. split; [reflexivity|].
  destruct (registry_has_one_input_per_target
              [ApiOp (OpMessage (message_for "synth")); ApiCreateVirtualInput "synth"])
    as (_ & _ & _ & _ & _ & _ & H).
  apply (H "synth" 1%nat). reflexivity.
Defined.

(** ** Listeners of a virtual input *)

Lemma handleMIDIMessage_known_effects (message : Message) (m : t) :
  map_has (msg_target message) (virtualInputs m) = true ->
  snd (handleMIDIMessage message m)
  = match map_get (msg_target message) (virtualInputs m) with
    | Some r =>
        match store m !! r with
        | Some virtualInput =>
            match onmidimessage virtualInput with
            | Some h => [CallInputOnMidiMessage h r (msg_data message)
                           (msg_timestamp message) (msg_target message)]
            | None => []
            end
        | None => []
        end
    | None => []
    end
    ++ match onMIDIMessage m with
       | Some h => [CallOnMIDIMessage h (msg_data message) (msg_timestamp message)
                      (msg_target message) (msg_latency message)]
       | None => []
       end.
Proof.
  intros Hhas. unfold handleMIDIMessage.
  cbn [virtualInputs with_stats]. rewrite Hhas. reflexivity.
Qed.

(** X13 -- a virtual input has one listener at a time.  On the object
    registered for a target, [addEventListener('midimessage', h)] makes
    every message for that target call [h], once, with the payload, the
    timestamp and the target, before the manager's own [onMIDIMessage];
    adding another listener replaces [h]; [removeEventListener] removes the
    listener whichever function it is given; and any other event name is
    ignored. *)
Theorem input_has_one_listener
    (m : t) (r : ref) (v : VirtualInput) (h h2 other : handler) (message : Message) :
  map_get (msg_target message) (virtualInputs m) = Some r ->
  store m !! r = Some v ->
  let global :=
    match onMIDIMessage m with
    | Some g => [CallOnMIDIMessage g (msg_data message) (msg_timestamp message)
                   (msg_target message) (msg_latency message)]
    | None => []
    end in
  let called f :=
    CallInputOnMidiMessage f r (msg_data message) (msg_timestamp message)
      (msg_target message) in
  let listening := addEventListener r "midimessage" h m in
  snd (handleMIDIMessage message listening) = called h :: global
  /\ snd (handleMIDIMessage message (addEventListener r "midimessage" h2 listening))
     = called h2 :: global
  /\ snd (handleMIDIMessage message (removeEventListener r "midimessage" other listening))
     = global
  /\ forall event, event <> "midimessage" ->
       addEventListener r event h m = m /\ removeEventListener r event h m = m.
Proof.
  intros Hget Hv global called listening.
  assert (Hhas : map_has (msg_target message) (virtualInputs m) = true).
  { apply map_has_get. rewrite Hget. eexists; reflexivity. }
  assert (Hadd : forall f m0, addEventListener r "midimessage" f m0
            = with_store (alter (input_set_onmidimessage (Some f)) r (store m0)) m0)
    by reflexivity.
  assert (Hrem : forall f m0, removeEventListener r "midimessage" f m0
            = with_store (alter (input_set_onmidimessage None) r (store m0)) m0)
    by reflexivity.
  unfold listening.
  split; [|split; [|split]].
  - rewrite handleMIDIMessage_known_effects by exact Hhas.
    rewrite Hadd. cbn [virtualInputs store with_store onMIDIMessage].
    unfold ref in *. rewrite Hget, list_lookup_alter_eq, Hv. reflexivity.
  - rewrite handleMIDIMessage_known_effects by exact Hhas.
    rewrite !Hadd. cbn [virtualInputs store with_store onMIDIMessage].
    unfold ref in *. rewrite Hget, !list_lookup_alter_eq, Hv. reflexivity.
  - rewrite handleMIDIMessage_known_effects by exact Hhas.
    rewrite Hrem, Hadd. cbn [virtualInputs store with_store onMIDIMessage].
    unfold ref in *. rewrite Hget, !list_lookup_alter_eq, Hv. reflexivity.
  - intros event Hne. apply String.eqb_neq in Hne.
    unfold addEventListener, removeEventListener. rewrite Hne. auto.
Qed.

(** X13 at the input that a first message for 'control' created. *)
Lemma input_has_one_listener_witness :
  let m := fst (handleMIDIMessage (message_for "control") constructor) in
  snd (handleMIDIMessage (message_for "control")
         (addEventListener 0%nat "midimessage" 9%nat m))
    = [CallInputOnMidiMessage 9%nat 0%nat [144; 60; 127]%Z 1000%float "control"]
  /\ snd (handleMIDIMessage (message_for "control")
            (removeEventListener 0%nat "midimessage" 3%nat
               (addEventListener 0%nat "midimessage" 9%nat m))) = [].
Proof.
  intros m.
  destruct (input_has_one_listener m 0%nat
              {| in_id := "webrtc-midi-control"; in_name := "WebRTC MIDI (control)";
                 in_manufacturer := "WebRTC"; in_type := "input";
                 in_state := "connected"; in_connection := "open";
                 in_target := "control"; onmidimessage := None |}
              9%nat 4%nat 3%nat (message_for "control") eq_refl eq_refl)
    as (H1 & _ & H3 & _).
  split; [exact H1 | exact H3].
Defined.

(** ** After a disconnect *)

Lemma disconnect_reporting_connection (reports : list string) (m : t) :
  connection (fst (disconnect_reporting reports m)) = None
  /\ isConnected (fst (disconnect_reporting reports m)) = false
  /\ connectionState (fst (disconnect_reporting reports m)) = "disconnected".
Proof.
  unfold disconnect_reporting.
  destruct (connection m) eqn:Hc; [destruct (deliver_reports reports m)|];
    cbn; auto.
Qed.

(** X14 -- a disconnected manager sends nothing.  After [disconnect()],
    whatever [close()] reported on its way: [sendMIDI] returns [false]
    and calls nothing; the [send] of any virtual output -- those that
    [disconnect()] left in the registry and those the host still holds --
    calls nothing; [processOffer] throws until [initialize()] is called
    again; the getter [connected] is false and the state is
    'disconnected'. *)
Theorem disconnected_manager_sends_nothing
    (reports : list string) (m : t) (data : MidiData) (timestamp : option float)
    (target : option string) (now : float) (o : VirtualOutput)
    (handleOffer : string -> Js.completion string) (offerJSON : string) :
  let m' := fst (disconnect_reporting reports m) in
  sendMIDI data timestamp target now m' = (false, [])
  /\ output_send o data timestamp now m' = []
  /\ processOffer handleOffer offerJSON m'
     = Js.Throw "Connection not initialized. Call initialize() first."
  /\ processOffer handleOffer offerJSON (fst (initialize m')) = handleOffer offerJSON
  /\ connected m' = false
  /\ connectionState m' = "disconnected".
Proof.
  intros m'.
  destruct (disconnect_reporting_connection reports m) as (Hc & Hi & Hs).
  fold m' in Hc, Hi, Hs.
  unfold output_send, sendMIDI, processOffer, connected.
  rewrite Hc, Hi, Hs. repeat split.
Qed.

(** X15 -- discovery starts over after a connection is lost.  After a
    change of the connection state to 'disconnected' or 'failed', the next
    message, whatever its target and whether or not that target was
    registered before, creates a new input object without listener, makes
    it the only registered input, and is announced to the discovery
    handler; no listener of an earlier object is called. *)
Theorem discovery_starts_over_after_disconnect
    (m : t) (state : string) (h : handler) (message : Message) :
  state = "disconnected" \/ state = "failed" ->
  onTargetDiscovered m = Some h ->
  let lost := fst (handleConnectionStateChange state m) in
  let T := msg_target message in
  let r := length (store m) in
  snd (handleMIDIMessage message lost)
    = CallOnTargetDiscovered h T r
      :: match onMIDIMessage m with
         | Some g => [CallOnMIDIMessage g (msg_data message) (msg_timestamp message)
                        T (msg_latency message)]
         | None => []
         end
  /\ virtualInputs (fst (handleMIDIMessage message lost)) = [(T, r)]
  /\ exists v, store (fst (handleMIDIMessage message lost)) = store m ++ [v]
               /\ input_for T v /\ onmidimessage v = None.
Proof.
  intros Hstate Hh lost T r.
  assert (Hlost : virtualInputs lost = [] /\ store lost = store m
                  /\ onTargetDiscovered lost = Some h
                  /\ onMIDIMessage lost = onMIDIMessage m).
  { unfold lost. destruct Hstate as [ -> | -> ]; cbn; auto. }
  destruct Hlost as (Hin & Hst & Hd & Hg).
  unfold handleMIDIMessage, createVirtualInput.
  cbn [virtualInputs with_stats store with_store with_virtualInputs
       onTargetDiscovered onMIDIMessage].
  rewrite Hin. cbn [map_has existsb negb].
  cbn [fst snd virtualInputs with_stats store with_store with_virtualInputs
       onTargetDiscovered onMIDIMessage map_set map_get].
  rewrite Hst, Hd, Hg. fold T r. rewrite String.eqb_refl.
  unfold ref in *. rewrite list_lookup_middle by reflexivity.
  cbn [onmidimessage app].
  split; [reflexivity|]. split; [reflexivity|].
  eexists. split; [reflexivity|]. repeat split.
Qed.

(** X15 at a manager that had 'control' registered with a listener. *)
Lemma discovery_starts_over_after_disconnect_witness :
  let m := addEventListener 0%nat "midimessage" 9%nat
             (fst (handleMIDIMessage (message_for "control") listening)) in
  snd (handleMIDIMessage (message_for "control") m)
    = [CallInputOnMidiMessage 9%nat 0%nat [144; 60; 127]%Z 1000%float "control"]
  /\ snd (handleMIDIMessage (message_for "control")
            (fst (handleConnectionStateChange "failed" m)))
     = [CallOnTargetDiscovered 7%nat "control" 1%nat].
Proof.
  intros m. split; [reflexivity|].
  apply (discovery_starts_over_after_disconnect m "failed" 7%nat (message_for "control")).
  - right. reflexivity.
  - reflexivity.
Defined.

(** ** Payloads *)




(** * Properties of the UI controller *)

(** X17 -- kilobytes are shown to one decimal, up to '1024.0KB'.  For a
    count from 1024 up to, but not including, 1024 * 1024 bytes,
    [formatBytes] prints the tenths of a kilobyte nearest to the count,
    followed by 'KB': the number shown is between 1.0 and 1024.0 and is
    off by at most a twentieth of a kilobyte; from 1048525 bytes on it
    reads '1024.0KB', not '1.0MB'. *)
Theorem formatBytes_kilobytes (bytes : Z) :
  (1024 <= bytes < 1024 * 1024)%Z ->
  exists tenths : Z,
    UI.formatBytes bytes
    = ((UI.decimal (tenths / 10) ++ "." ++ UI.decimal (tenths mod 10)) ++ "KB")%string
    /\ (10 <= tenths <= 10240)%Z
    /\ (-512 <= 10 * bytes - 1024 * tenths < 512)%Z
    /\ ((1048525 <= bytes)%Z -> UI.formatBytes bytes = "1024.0KB").
Proof.
  intros [Hlo Hhi].
  assert (Hshape : UI.formatBytes bytes
    = ((UI.decimal (((10 * bytes + 512) / 1024) / 10) ++ "."
        ++ UI.decimal (((10 * bytes + 512) / 1024) mod 10)) ++ "KB")%string).
  { unfold UI.formatBytes, UI.toFixed1.
    destruct (Z.ltb_spec bytes 1024); [lia|].
    destruct (Z.ltb_spec bytes (1024 * 1024)); [|lia].
    reflexivity. }
  exists ((10 * bytes + 512) / 1024)%Z.
  pose proof (Z.div_mod (10 * bytes + 512) 1024 ltac:(lia)) as Hdiv.
  pose proof (Z.mod_pos_bound (10 * bytes + 512) 1024 ltac:(lia)) as Hmod.
  split; [exact Hshape|]. split; [lia|]. split; [lia|].
  intros Hedge. rewrite Hshape.
  replace ((10 * bytes + 512) / 1024)%Z with 10240%Z by lia.
  reflexivity.
Qed.

(** X17 at 1536 bytes and at one byte below a megabyte. *)
Lemma formatBytes_kilobytes_witness :
  UI.formatBytes 1536 = "1.5KB" /\ UI.formatBytes 1048575 = "1024.0KB"
  /\ UI.formatBytes 1048576 = "1.0MB" /\ UI.formatBytes 1023 = "1023B".
Proof.
  split; [reflexivity|]. split; [|split; reflexivity].
  destruct (formatBytes_kilobytes 1048575 ltac:(lia)) as (tenths & _ & _ & _ & H).
  apply H. lia.
Defined.

Lemma updateConnectionStatus_timer (can_populate : bool) (state : string) (ui : UI.t) :
  UI.timer_kept ui ->
  UI.timer_kept (fst (UI.updateConnectionStatus can_populate state ui))
  /\ bool_decide (is_Some (UI.statsInterval
                             (fst (UI.updateConnectionStatus can_populate state ui))))
     = UI.refreshing [state] (bool_decide (is_Some (UI.statsInterval ui))).
Proof.
  unfold UI.timer_kept, UI.updateConnectionStatus, UI.refreshing. cbn [fold_left].
  intros H.
  destruct (String.eqb_spec state "connected") as [ -> | _ ].
  { unfold UI.startStatsUpdate. cbn [UI.statsInterval UI.with_page].
    destruct (UI.statsInterval ui) as [handle|] eqn:E; cbn; rewrite ?E, H; auto. }
  destruct (String.eqb_spec state "connecting") as [ -> | _ ]; [cbn; auto|].
  destruct (String.eqb state "disconnected" || String.eqb state "failed"); [|auto].
  unfold UI.stopStatsUpdate. cbn [UI.statsInterval UI.with_page].
  destruct (UI.statsInterval ui) as [handle|] eqn:E; cbn; rewrite ?E, H; cbn;
    rewrite ?Nat.eqb_refl; auto.
Qed.

Lemma refreshing_cons (state : string) (states : list string) (before : bool) :
  UI.refreshing (state :: states) before
  = UI.refreshing states (UI.refreshing [state] before).
Proof. reflexivity. Qed.

Lemma updates_timer (can_populate : bool) (states : list string) (ui : UI.t) :
  UI.timer_kept ui ->
  UI.timer_kept (UI.updates can_populate states ui)
  /\ bool_decide (is_Some (UI.statsInterval (UI.updates can_populate states ui)))
     = UI.refreshing states (bool_decide (is_Some (UI.statsInterval ui))).
Proof.
  revert ui. induction states as [|state states IH]; intros ui H; [auto|].
  destruct (updateConnectionStatus_timer can_populate state ui H) as [H1 H2].
  destruct (IH _ H1) as [H3 H4].
  rewrite refreshing_cons, <- H2. cbn [UI.updates fold_left] in *. auto.
Qed.

(** X18 -- the statistics refresh on one timer, as long as connected.
    Whatever connection states are reported to the controller, and in
    whatever order: at most one interval timer of its making is running,
    and it is the one whose handle it keeps; and a timer is running exactly
    when, among the reports of 'connected', 'disconnected' and 'failed',
    the last one was 'connected'.  Reporting 'connected' twice starts no
    second timer. *)
Theorem stats_refresh_on_one_timer
    (can_populate : bool) (p : UI.Page) (next : nat) (states : list string) :
  let ui := UI.updates can_populate states (UI.constructor p next) in
  (length (UI.timers ui) <= 1)%nat
  /\ UI.timers ui
     = match UI.statsInterval ui with Some handle => [handle] | None => [] end
  /\ (UI.timers ui <> [] <-> UI.refreshing states false = true)
  /\ UI.timers (fst (UI.updateConnectionStatus can_populate "connected"
                       (fst (UI.updateConnectionStatus can_populate "connected" ui))))
     = UI.timers (fst (UI.updateConnectionStatus can_populate "connected" ui)).
Proof.
  intros ui.
  destruct (updates_timer can_populate states (UI.constructor p next) eq_refl)
    as [H1 H2].
  fold ui in H1, H2. unfold UI.timer_kept in H1. cbn in H2.
  split; [rewrite H1; destruct (UI.statsInterval ui); cbn; lia|].
  split; [exact H1|]. split.
  - rewrite <- H2, H1. destruct (UI.statsInterval ui) as [handle|]; cbn.
    + split; [reflexivity | discriminate].
    + split; [congruence | discriminate].
  - unfold UI.updateConnectionStatus, UI.startStatsUpdate.
    cbn [String.eqb Ascii.eqb Bool.eqb UI.statsInterval UI.with_page].
    destruct (UI.statsInterval ui) eqn:E; cbn; rewrite ?E; reflexivity.
Qed.

(** X19 -- the controller names the input as the manager does.  For a
    message that the manager has just handled, whatever was called on the
    manager before, the id, name and manufacturer that the UI puts into the
    event for the controller are those of the virtual input object that the
    manager holds for the target of the message. *)
Theorem ui_event_names_the_virtual_input
    (calls : list Api) (message : Message) :
  let m := fst (handleMIDIMessage message (fst (api_run calls constructor))) in
  exists (r : ref) (v : VirtualInput),
    getVirtualInput (msg_target message) m = Some r
    /\ store m !! r = Some v
    /\ UI.handleMIDIMessage true (msg_data message) (msg_timestamp message)
         (msg_target message)
       = [UI.HandleMIDIInput (msg_data message) (msg_timestamp message)
            {| UI.ev_id := in_id v;
               UI.ev_name := in_name v;
               UI.ev_manufacturer := in_manufacturer v |}].
Proof.
  intros m.
  set (m0 := fst (api_run calls constructor)) in *.
  assert (H0 : registry_ok m0).
  { apply api_run_invariant; [apply api_step_registry_ok | apply constructor_registry_ok]. }
  assert (H : registry_ok m) by apply handleMIDIMessage_registry_ok, H0.
  assert (Hhas : map_has (msg_target message) (virtualInputs m) = true).
  { unfold m. destruct (map_has (msg_target message) (virtualInputs m0)) eqn:E.
    - destruct (handleMIDIMessage_known message m0 E) as (-> & _). exact E.
    - destruct (handleMIDIMessage_new message m0 E) as (-> & _).
      rewrite map_has_set, String.eqb_refl. reflexivity. }
  apply map_has_get in Hhas. destruct Hhas as [r Hr].
  pose proof (map_get_elem_of _ _ _ Hr) as Hin.
  destruct H as (_ & _ & H & _). rewrite Forall_forall in H.
  destruct (H _ Hin) as (v & Hv & (_ & Hid & Hname & Hman & _)).
  exists r, v. split; [exact Hr|]. split; [exact Hv|].
  unfold UI.handleMIDIMessage. cbn in Hid, Hname. rewrite Hid, Hname, Hman.
  reflexivity.
Qed.


(** * The bridge configuration and the inbound handlers *)

(** X20 -- [options.bridgeConfig] has the last word.  A property of
    [options.bridgeConfig] becomes the edge of that name whatever the
    option flag of the edge says, and it decides the forwarding: a message
    from USB goes out over WebRTC exactly when the property 'usbToWebRTC'
    is truthy. *)
Theorem bridgeConfig_override_wins
    (is_main : bool) (options : Electron.Options)
    (override : gmap string Js.value) (k : string) (v : Js.value)
    (data : Uint8Array) (ts : float) :
  Electron.opt_bridgeConfig options = Some override ->
  override !! k = Some v ->
  let self := Electron.constructor is_main options in
  Electron.bridgeConfig self !! k = Some v
  /\ (k = "usbToWebRTC" ->
      Electron.sendMIDI self data ts (Some "usb")
      = if Js.truthy v then [Electron.SuperSendMIDI data ts "default"] else []).
Proof.
  intros Hopt Hk self.
  assert (H : Electron.bridgeConfig self !! k = Some v).
  { cbn. unfold Electron.constructor_bridgeConfig. rewrite Hopt.
    apply lookup_union_Some_l, Hk. }
  split; [exact H|]. intros ->.
  rewrite sendMIDI_from_usb by discriminate.
  rewrite (prop_lookup _ _ _ H).
  change (Electron.rtpMidiEnabled self) with false.
  rewrite andb_false_r, app_nil_r. reflexivity.
Qed.

(** X20 at options with [bridgeUSBtoWebRTC: false] and
    [bridgeConfig: { usbToWebRTC: true }]. *)
Lemma bridgeConfig_override_wins_witness :
  Electron.sendMIDI (Electron.constructor true Electron.flag_off_override_on)
    Electron.note_on 1000%float (Some "usb")
  = [Electron.SuperSendMIDI Electron.note_on 1000%float "default"].
Proof.
  apply (proj2 (bridgeConfig_override_wins true Electron.flag_off_override_on
                  {[ "usbToWebRTC" := Js.Bool true ]} "usbToWebRTC" (Js.Bool true)
                  Electron.note_on 1000%float eq_refl eq_refl)).
  reflexivity.
Defined.

(** X21 -- what the inbound handlers pass on.  A message that arrives
    from the RTP-MIDI session is reduced to bytes and handed to WebRTC
    with target 'default' when the edge rtpMidiToWebRTC is truthy, and to
    nothing else.  A message that arrives over WebRTC is handed to the
    RTP-MIDI session in the main process when RTP-MIDI is enabled and the
    edge webrtcToRtpMidi is truthy, and to nothing else.  A message from a
    port of node-midi is treated as the same bytes tagged 'usb'. *)
Theorem inbound_handlers_forward
    (self : Electron.t) (message : list Z) (data : Uint8Array) (now : float) :
  Electron.rtp_onMessage self message now
    = (if Js.truthy (Js.prop (Electron.bridgeConfig self) "rtpMidiToWebRTC")
       then [Electron.SuperSendMIDI (Electron.bytes_of_numbers message) now "default"]
       else [])
  /\ Electron.bridge_onMIDIMessage self data now
     = (if Electron.isMain self && Electron.rtpMidiEnabled self
           && Js.truthy (Js.prop (Electron.bridgeConfig self) "webrtcToRtpMidi")
        then snd (Electron.sendMIDItoRtpMidi self data) else [])
  /\ Electron.nodemidi_onMessage self message now
     = Electron.webmidi_hotplug_onmidimessage self
         (Electron.bytes_of_numbers message) now
  /\ Forall (fun b => (0 <= b < 256)%Z) (Electron.bytes_of_numbers message).
Proof.
  split; [apply sendMIDI_from_rtpmidi|]. split; [|split; [reflexivity|]].
  - unfold Electron.bridge_onMIDIMessage. rewrite sendMIDI_from_webrtc.
    destruct (_ && _); reflexivity.
  - apply Forall_forall. intros b Hb. apply list_elem_of_In, in_map_iff in Hb.
    destruct Hb as (x & <- & _). apply Z.mod_pos_bound. lia.
Qed.
